(** * Set operators of the PostgreSQL query builder

    A shallow embedding of
    [drizzle-orm/src/pg-core/query-builders/set-operators.ts]:
    the [PgSetOperator] node, its six free chain builders, the six
    fluent methods of [PgSetOperatorBuilder], and [getSQL]/[toSQL].

    JavaScript objects that the module writes in place (the SQL
    expressions handed to [orderBy]) live in an explicit store and are
    referred to by address, so that sharing is visible.  Exceptions are
    values of a small error monad. *)

From Stdlib Require Import ZArith String List Bool Lia DecimalString.
From stdpp Require Import base list strings.

Import ListNotations.
Set Warnings "-register-all".
Local Open Scope string_scope.
Local Open Scope list_scope.

(** ** Exceptions *)

(** [throw new Error(msg)] and the engine's own [TypeError] (a method
    called on a value that does not have it). *)
Inductive Exception :=
| Error (message : string)
| TypeError.

Inductive Result (A : Type) :=
| Return (a : A)
| Throw (e : Exception).

Arguments Return {A} a.
Arguments Throw {A} e.

Definition bind {A B : Type} (r : Result A) (k : A -> Result B) : Result B :=
  match r with
  | Return a => k a
  | Throw e => Throw e
  end.

Notation "'let*' x ':=' r 'in' k" := (bind r (fun x => k))
  (at level 10, x name, r at level 100, k at level 200).

(** The two messages of the source, lines 193 and 349. *)
Definition ShapeMismatch : Exception :=
  Error "Set operator error (union / intersect / except): selected fields are not the same or are in a different order".

Definition MissingOperand : Exception :=
  Error "Cannot pass undefined values to any set operator".

(** ** SQL fragments *)

Record PgColumn := mkPgColumn { table : string; name : string }.

(** [number | Placeholder]: the type of [config.limit] and
    [config.offset], and of a value embedded in a fragment. *)
Inductive LimitValue :=
| LimitNumber (n : Z)
| LimitPlaceholder (placeholder : string).

(** Modelled from the spec: the Fragment Model of [~/index.ts] (the
    [SQL] class with its [queryChunks] list, [StringChunk], [Placeholder],
    [SQL.Aliased]) is not part of the sources at hand.  A fragment is a
    tree of raw text chunks and embedded values.  An SQL object created
    by this module is a value ([SQLObject]); an SQL object owned by the
    caller is a store cell, embedded by address ([SQLRef]). *)
Inductive SQLChunk :=
| StringChunk (value : string)
| ColumnChunk (column : PgColumn)
| ParamChunk (value : LimitValue)
| AliasedChunk (inner : list SQLChunk) (fieldAlias : string)
| SQLObject (queryChunks : list SQLChunk)
| SQLRef (address : nat)
| UndefinedChunk.

(** The store: cell [a] holds the [queryChunks] array of the caller's
    SQL object number [a]. *)
Abbreviation Store := (list (list SQLChunk)).

(** Modelled from the spec: [sql.raw(str)] of the Fragment Model, a
    fragment of raw literal text. *)
Definition raw (str : string) : SQLChunk := SQLObject [StringChunk str].

(** Modelled from the spec: the chunks of a template after its first
    literal part, each embedded value followed by the next literal part. *)
Fixpoint interleave (params : list SQLChunk) (strings : list string) : list SQLChunk :=
  match params, strings with
  | p :: params', s :: strings' => p :: StringChunk s :: interleave params' strings'
  | _, _ => []
  end.

(** Modelled from the spec: the [sql] template tag of the Fragment Model
    (template-style composition, embedding sub-fragments and raw literal
    text).  [strings] are the literal parts, one more than [params]. *)
Definition sql (strings : list string) (params : list SQLChunk) : SQLChunk :=
  match strings with
  | [] => SQLObject []
  | s0 :: rest =>
      SQLObject
        ((if (0 <? length params)%nat || negb (String.eqb s0 "")
          then [StringChunk s0] else [])
         ++ interleave params rest)
  end.

(** Modelled from the spec: a sequence with the separator between each
    two of its elements. *)
Fixpoint interpose (chunks : list SQLChunk) (separator : SQLChunk) : list SQLChunk :=
  match chunks with
  | [] => []
  | [c] => [c]
  | c :: rest => c :: separator :: interpose rest separator
  end.

(** Modelled from the spec: [sql.join] of the Fragment Model, which
    interleaves a separator fragment between the elements of a sequence. *)
Definition join (chunks : list SQLChunk) (separator : SQLChunk) : SQLChunk :=
  SQLObject (interpose chunks separator).

(** ** Flattening *)

(** Modelled from the spec: what a flattened fragment is made of, raw
    text, a column reference qualified by its table, an escaped name,
    and a parameter. *)
Inductive Leaf :=
| LText (text : string)
| LColumn (column : PgColumn)
| LName (alias : string)
| LParam (value : LimitValue).

(** Modelled from the spec: the flattening of the Fragment Model, which
    walks a fragment in order.  An undefined chunk and an empty text
    contribute nothing.  A store object is followed through its address;
    [fuel] bounds the nesting of store objects inside one another. *)
Fixpoint flattenFuel (st : Store) (fuel : nat) : SQLChunk -> list Leaf :=
  fix go (chunk : SQLChunk) : list Leaf :=
    match chunk with
    | StringChunk s => if String.eqb s "" then [] else [LText s]
    | ColumnChunk c => [LColumn c]
    | ParamChunk v => [LParam v]
    | AliasedChunk _ al => [LName al]
    | SQLObject cs => flat_map go cs
    | SQLRef a =>
        match fuel with
        | O => []
        | S fuel' =>
            match st !! a with
            | Some cs => flat_map (flattenFuel st fuel') cs
            | None => []
            end
        end
    | UndefinedChunk => []
    end.

(** Modelled from the spec: flattening against a store.  Store objects
    nested in one another without a cycle form a chain no longer than the
    store, so the size of the store is fuel enough ([flatten_fuel_enough]
    below). *)
Definition flatten (st : Store) (chunk : SQLChunk) : list Leaf :=
  flattenFuel st (length st) chunk.

(** Modelled from the spec: what [sqlToQuery] returns, the SQL text, the
    parameter list and the type-tag list. *)
Record QueryWithTypings := mkQueryWithTypings {
  qt_sql : string;
  qt_params : list LimitValue;
  qt_typings : list string
}.

(** Modelled from the spec: [Query], the plain [{sql, params}]. *)
Record Query := mkQuery { sql_text : string; params : list LimitValue }.

(** Modelled from the spec: the dialect object, an external
    collaborator.  Its lowering of a flattened fragment to text,
    parameters and type tags is a parameter. *)
Record PgDialect := mkPgDialect {
  lower : list Leaf -> QueryWithTypings
}.

(** Modelled from the spec: [dialect.sqlToQuery(fragment)], the final
    lowering step from the fragment tree to a flat query. *)
Definition sqlToQuery (d : PgDialect) (st : Store) (fragment : SQLChunk) : QueryWithTypings :=
  lower d (flatten st fragment).

(** ** Queries *)

Inductive SetOperator := Union | Intersect | Except.

Definition operatorName (type : SetOperator) : string :=
  match type with
  | Union => "union"
  | Intersect => "intersect"
  | Except => "except"
  end.

(** [PgColumn | SQL | SQL.Aliased], an entry of [config.orderBy].  An
    [SQL] entry is the caller's object, named by its store address. *)
Inductive OrderByItem :=
| OrderByColumn (column : PgColumn)
| OrderBySQL (address : nat)
| OrderByAliased (inner : list SQLChunk) (fieldAlias : string).

(** [Record<string, unknown>]: the keys in insertion order with their values. *)
Definition Fields := list (string * SQLChunk).

(** [this.config] of a node: [fields] and the three optional modifiers. *)
Module Config.
Record t := mk {
  fields : Fields;
  limit : option LimitValue;
  orderBy : option (list OrderByItem);
  offset : option LimitValue
}.
End Config.

Definition PgSession := nat.

(** Modelled from the spec: a BaseQuery, built by the single-table
    SELECT builder outside these sources, through the capabilities the
    node reads: the RowShape [getSelectedFields()] returns, the session
    (possibly absent), dialect, join-nullability map and [fields] that
    [getSetOperatorConfig()] carries, and the fragment of [getSQL()].
    Nothing is assumed about how the two shapes relate. *)
Record BaseQuery := mkBaseQuery {
  base_selectedFields : Fields;
  base_session : option PgSession;
  base_dialect : PgDialect;
  base_joinsNotNullableMap : list (string * bool);
  base_fields : Fields;
  base_sql : SQLChunk
}.

Inductive QueryBuilder :=
| BaseSelect (b : BaseQuery)
| PgSetOperator (operator : SetOperator) (isAll : bool)
    (leftSelect rightSelect : QueryBuilder)
    (session : option PgSession) (dialect : PgDialect)
    (joinsNotNullableMap : list (string * bool)) (config : Config.t).

Record SetOperatorConfig := mkSetOperatorConfig {
  soc_session : option PgSession;
  soc_dialect : PgDialect;
  soc_joinsNotNullableMap : list (string * bool);
  soc_fields : Fields
}.

Definition getSetOperatorConfig (q : QueryBuilder) : SetOperatorConfig :=
  match q with
  | BaseSelect b =>
      mkSetOperatorConfig (base_session b) (base_dialect b)
        (base_joinsNotNullableMap b) (base_fields b)
  | PgSetOperator _ _ _ _ session dialect joinsNotNullableMap config =>
      mkSetOperatorConfig session dialect joinsNotNullableMap (Config.fields config)
  end.

(** [this._.selectedFields]; the constructor of a node stores [fields] there. *)
Definition getSelectedFields (q : QueryBuilder) : Fields :=
  match q with
  | BaseSelect b => base_selectedFields b
  | PgSetOperator _ _ _ _ _ _ _ config => Config.fields config
  end.

Definition keys (f : Fields) : list string := map fst f.

(** Modelled from the spec: the comparison inside [haveSameKeys], same
    names in the same order. *)
Fixpoint sameKeyList (l r : list string) : bool :=
  match l, r with
  | [], [] => true
  | k :: l', k' :: r' => String.eqb k k' && sameKeyList l' r'
  | _, _ => false
  end.

(** Modelled from the spec: [haveSameKeys] of [~/utils.ts] is not part of
    the sources at hand.  Two RowShapes are compatible iff they have
    identical field-name sets in identical order. *)
Definition haveSameKeys (l r : Fields) : bool :=
  sameKeyList (keys l) (keys r).

(** ** Construction *)

(** [PgSetOperators], the registry handed to a function operand: the six
    free functions, at their declared type. *)
Module PgSetOperators.
Record t := mk {
  union : QueryBuilder -> QueryBuilder -> list QueryBuilder -> Result QueryBuilder;
  unionAll : QueryBuilder -> QueryBuilder -> list QueryBuilder -> Result QueryBuilder;
  intersect : QueryBuilder -> QueryBuilder -> list QueryBuilder -> Result QueryBuilder;
  intersectAll : QueryBuilder -> QueryBuilder -> list QueryBuilder -> Result QueryBuilder;
  except : QueryBuilder -> QueryBuilder -> list QueryBuilder -> Result QueryBuilder;
  exceptAll : QueryBuilder -> QueryBuilder -> list QueryBuilder -> Result QueryBuilder
}.
End PgSetOperators.

(** A run-time operand: a query, a function from the operator registry
    to a query, or [undefined]. *)
Inductive Value :=
| VQuery (q : QueryBuilder)
| VFunction (f : PgSetOperators.t -> Result QueryBuilder)
| VUndefined.

(** [new PgSetOperator(operator, isAll, leftSelect, rightSelect)], lines
    180-209.  [rightSelect.getSelectedFields()] on a value that is not a
    query is a [TypeError]. *)
Definition new_PgSetOperator (operator : SetOperator) (isAll : bool)
    (leftSelect : QueryBuilder) (rightSelect : Value) : Result QueryBuilder :=
  let leftSelectedFields := getSelectedFields leftSelect in
  match rightSelect with
  | VQuery rightQuery =>
      let rightSelectedFields := getSelectedFields rightQuery in
      if negb (haveSameKeys leftSelectedFields rightSelectedFields)
      then Throw ShapeMismatch
      else
        let c := getSetOperatorConfig leftSelect in
        Return (PgSetOperator operator isAll leftSelect rightQuery
                  (soc_session c) (soc_dialect c) (soc_joinsNotNullableMap c)
                  (Config.mk (soc_fields c) None None None))
  | VFunction _ | VUndefined => Throw TypeError
  end.

(** [!select] *)
Definition falsy (v : Value) : bool :=
  match v with
  | VUndefined => true
  | VQuery _ | VFunction _ => false
  end.

(** The free function [setOperator(type, isAll)], lines 330-353. *)
Fixpoint setOperator (type : SetOperator) (isAll : bool)
    (leftSelect : QueryBuilder) (rightSelect : Value) (restSelects : list Value)
    : Result QueryBuilder :=
  match restSelects with
  | [] => new_PgSetOperator type isAll leftSelect rightSelect
  | select :: rest =>
      if falsy select then Throw MissingOperand
      else
        let* node := new_PgSetOperator type isAll leftSelect rightSelect in
        setOperator type isAll node select rest
  end.

Definition union := setOperator Union false.
Definition unionAll := setOperator Union true.
Definition intersect := setOperator Intersect false.
Definition intersectAll := setOperator Intersect true.
Definition except := setOperator Except false.
Definition exceptAll := setOperator Except true.

(** The registry hands out the six free functions at their declared
    type, whose operands are queries. *)
Definition typed (f : QueryBuilder -> Value -> list Value -> Result QueryBuilder)
    (leftSelect rightSelect : QueryBuilder) (restSelects : list QueryBuilder)
    : Result QueryBuilder :=
  f leftSelect (VQuery rightSelect) (map VQuery restSelects).

Definition getPgSetOperators : PgSetOperators.t :=
  PgSetOperators.mk (typed union) (typed unionAll) (typed intersect)
    (typed intersectAll) (typed except) (typed exceptAll).

(** The fluent methods of [PgSetOperatorBuilder], lines 102-127. *)
Module PgSetOperatorBuilder.

Definition setOperator (type : SetOperator) (isAll : bool)
    (this : QueryBuilder) (rightSelect : Value) : Result QueryBuilder :=
  let* rightSelectOrig :=
    match rightSelect with
    | VFunction f => let* q := f getPgSetOperators in Return (VQuery q)
    | _ => Return rightSelect
    end in
  new_PgSetOperator type isAll this rightSelectOrig.

Definition union := setOperator Union false.
Definition unionAll := setOperator Union true.
Definition intersect := setOperator Intersect false.
Definition intersectAll := setOperator Intersect true.
Definition except := setOperator Except false.
Definition exceptAll := setOperator Except true.

End PgSetOperatorBuilder.

(** ** Modifiers *)

(** A node is a value here: a modifier method returns the node with its
    [config] updated.  The modifiers of a base query belong to its own
    builder, outside these sources. *)
Definition withConfig (q : QueryBuilder) (f : Config.t -> Config.t) : QueryBuilder :=
  match q with
  | BaseSelect b => BaseSelect b
  | PgSetOperator operator isAll l r session dialect jnm config =>
      PgSetOperator operator isAll l r session dialect jnm (f config)
  end.

(** [orderBy(...columns)], the list form: replaces the whole list.
    (The callback form goes through [SelectionProxyHandler], outside
    these sources, to obtain such a list.) *)
Definition orderBy (columns : list OrderByItem) (this : QueryBuilder) : QueryBuilder :=
  withConfig this (fun c =>
    Config.mk (Config.fields c) (Config.limit c) (Some columns) (Config.offset c)).

Definition limit (n : LimitValue) (this : QueryBuilder) : QueryBuilder :=
  withConfig this (fun c =>
    Config.mk (Config.fields c) (Some n) (Config.orderBy c) (Config.offset c)).

Definition offset (n : LimitValue) (this : QueryBuilder) : QueryBuilder :=
  withConfig this (fun c =>
    Config.mk (Config.fields c) (Config.limit c) (Config.orderBy c) (Some n)).

(** ** Rendering *)

(** The loop of lines 261-267 over one [queryChunks] array: [n] rounds
    are left, [i] is the index. *)
Fixpoint rewriteFrom (n i : nat) (queryChunks : list SQLChunk) : list SQLChunk :=
  match n with
  | O => queryChunks
  | S n' =>
      let queryChunks' :=
        match queryChunks !! i with
        | Some (ColumnChunk chunk) => <[i := raw (name chunk)]> queryChunks
        | _ => queryChunks
        end in
      rewriteFrom n' (S i) queryChunks'
  end.

Definition rewriteQueryChunks (queryChunks : list SQLChunk) : list SQLChunk :=
  rewriteFrom (length queryChunks) 0 queryChunks.

(** The same loop on the caller's object at address [a]. *)
Definition rewriteObject (a : nat) (st : Store) : Store :=
  match st !! a with
  | Some queryChunks => <[a := rewriteQueryChunks queryChunks]> st
  | None => st
  end.

(** The loop of lines 257-273: the [orderByValues] it pushes and the
    store it leaves. *)
Fixpoint orderByLoop (items : list OrderByItem) (st : Store) : list SQLChunk * Store :=
  match items with
  | [] => ([], st)
  | OrderByColumn c :: rest =>
      let '(values, st') := orderByLoop rest st in
      (raw (name c) :: values, st')
  | OrderBySQL a :: rest =>
      let '(values, st') := orderByLoop rest (rewriteObject a st) in
      (sql [""; ""] [SQLRef a] :: values, st')
  | OrderByAliased inner al :: rest =>
      let '(values, st') := orderByLoop rest st in
      (sql [""; ""] [AliasedChunk inner al] :: values, st')
  end.

(** Truthiness of [config.limit] and [config.offset]: [undefined] and
    the number zero are falsy, a placeholder object is truthy. *)
Definition truthy (v : option LimitValue) : bool :=
  match v with
  | None => false
  | Some (LimitNumber n) => negb (n =? 0)%Z
  | Some (LimitPlaceholder _) => true
  end.

(** [${this.config.limit}]: the value as a chunk of the template. *)
Definition embed (v : option LimitValue) : SQLChunk :=
  match v with
  | None => UndefinedChunk
  | Some x => ParamChunk x
  end.

(** [getSQL()], lines 247-285.  A base query returns its fragment and
    writes nothing. *)
Fixpoint getSQL (q : QueryBuilder) (st : Store) : SQLChunk * Store :=
  match q with
  | BaseSelect b => (base_sql b, st)
  | PgSetOperator operator isAll leftSelect rightSelect _ _ _ config =>
      let '(l, st1) := getSQL leftSelect st in
      let leftChunk := sql ["("; ") "] [l] in
      let '(r, st2) := getSQL rightSelect st1 in
      let rightChunk := sql ["("; ")"] [r] in
      let '(orderBySql, st3) :=
        match Config.orderBy config with
        | Some items =>
            if (0 <? length items)%nat then
              let '(orderByValues, st') := orderByLoop items st2 in
              (sql [" order by "; " "] [join orderByValues (sql [", "] [])], st')
            else (UndefinedChunk, st2)
        | None => (UndefinedChunk, st2)
        end in
      let limitSql :=
        if truthy (Config.limit config)
        then sql [" limit "; ""] [embed (Config.limit config)]
        else UndefinedChunk in
      let operatorChunk :=
        raw (operatorName operator ++ " " ++ (if isAll then "all " else "")) in
      let offsetSql :=
        if truthy (Config.offset config)
        then sql [" offset "; ""] [embed (Config.offset config)]
        else UndefinedChunk in
      (sql [""; ""; ""; ""; ""; ""; ""]
         [leftChunk; operatorChunk; rightChunk; orderBySql; limitSql; offsetSql],
       st3)
  end.

Definition dialectOf (q : QueryBuilder) : PgDialect :=
  soc_dialect (getSetOperatorConfig q).

(** [toSQL()], lines 242-245: the dialect's query without its typings. *)
Definition toSQL (this : QueryBuilder) (st : Store) : Query * Store :=
  let '(fragment, st') := getSQL this st in
  let q := sqlToQuery (dialectOf this) st' fragment in
  (mkQuery (qt_sql q) (qt_params q), st').

(** ** Prepared statements *)

(** The message of line 294. *)
Definition SessionMissing : Exception :=
  Error "Cannot execute a query on a query builder. Please use a database instance instead.".

(** Modelled from the spec: [tracer.startActiveSpan(name, fn)], an
    instrumentation scope that runs [fn] and returns what it returns. *)
Definition startActiveSpan {A : Type} (name : string) (fn : unit -> A) : A := fn tt.

(** Modelled from the spec: the prepared statement of the external
    session, represented by what it was prepared from.
    [joinsNotNullableMap] is the property [_prepare] assigns afterwards. *)
Record PreparedQuery := mkPreparedQuery {
  pq_session : PgSession;
  pq_query : QueryWithTypings;
  pq_fieldsList : list (list string * SQLChunk);
  pq_name : option string;
  pq_joinsNotNullableMap : option (list (string * bool))
}.

(** Modelled from the spec: [session.prepareQuery(query, fields, name)]
    of the external session. *)
Definition prepareQuery (session : PgSession) (query : QueryWithTypings)
    (fieldsList : list (list string * SQLChunk)) (name : option string)
    : PreparedQuery :=
  mkPreparedQuery session query fieldsList name None.

Section Session.

(** [orderSelectedFields] of [~/index.ts] and the [execute] of a prepared
    statement are external; they are parameters. *)
Variable orderSelectedFields : Fields -> list (list string * SQLChunk).
Variable Rows : Type.
Variable executePrepared : PreparedQuery -> list (string * Z) -> Result Rows.

(** [_prepare(name?)], lines 287-304, of a node. *)
Definition _prepare (this : QueryBuilder) (name : option string) (st : Store)
    : Result PreparedQuery * Store :=
  let c := getSetOperatorConfig this in
  match soc_session c with
  | None => (Throw SessionMissing, st)
  | Some session =>
      startActiveSpan "drizzle.prepareQuery" (fun _ =>
        let fieldsList := orderSelectedFields (soc_fields c) in
        let '(fragment, st') := getSQL this st in
        let query :=
          prepareQuery session (sqlToQuery (soc_dialect c) st' fragment)
            fieldsList name in
        (Return (mkPreparedQuery (pq_session query) (pq_query query)
                   (pq_fieldsList query) (pq_name query)
                   (Some (soc_joinsNotNullableMap c))),
         st'))
  end.

(** [prepare(name)], lines 313-319. *)
Definition prepare (this : QueryBuilder) (name : string) (st : Store)
    : Result PreparedQuery * Store :=
  _prepare this (Some name) st.

(** [execute(placeholderValues)], lines 321-325. *)
Definition execute (this : QueryBuilder) (placeholderValues : list (string * Z))
    (st : Store) : Result Rows * Store :=
  startActiveSpan "drizzle.operation" (fun _ =>
    let '(prepared, st') := _prepare this None st in
    (let* query := prepared in executePrepared query placeholderValues, st')).

End Session.

(** ** Reference definitions for the statements *)

(** What the loop of lines 261-267 does to one chunk. *)
Definition bareName (chunk : SQLChunk) : SQLChunk :=
  match chunk with
  | ColumnChunk c => raw (name c)
  | _ => chunk
  end.

Definition isColumn (chunk : SQLChunk) : bool :=
  match chunk with
  | ColumnChunk _ => true
  | _ => false
  end.

(** The addresses of the caller's objects that [getSQL] writes, in the
    order it writes them. *)
Fixpoint itemAddresses (items : list OrderByItem) : list nat :=
  match items with
  | [] => []
  | OrderBySQL a :: rest => a :: itemAddresses rest
  | _ :: rest => itemAddresses rest
  end.

Fixpoint written (q : QueryBuilder) : list nat :=
  match q with
  | BaseSelect _ => []
  | PgSetOperator _ _ l r _ _ _ config =>
      written l ++ written r ++
      match Config.orderBy config with
      | Some items => itemAddresses items
      | None => []
      end
  end.

Definition rewriteAll (addresses : list nat) (st : Store) : Store :=
  fold_left (fun s a => rewriteObject a s) addresses st.

(** The value the loop of lines 257-273 pushes for one entry. *)
Definition itemChunk (item : OrderByItem) : SQLChunk :=
  match item with
  | OrderByColumn c => raw (name c)
  | OrderBySQL a => sql [""; ""] [SQLRef a]
  | OrderByAliased inner al => sql [""; ""] [AliasedChunk inner al]
  end.

(** The fragment [getSQL] returns, without the store. *)
Definition nodeFragment (operator : SetOperator) (isAll : bool)
    (l r : SQLChunk) (config : Config.t) : SQLChunk :=
  sql [""; ""; ""; ""; ""; ""; ""]
    [sql ["("; ") "] [l];
     raw (operatorName operator ++ " " ++ (if isAll then "all " else ""));
     sql ["("; ")"] [r];
     match Config.orderBy config with
     | Some items =>
         if (0 <? length items)%nat
         then sql [" order by "; " "] [join (map itemChunk items) (sql [", "] [])]
         else UndefinedChunk
     | None => UndefinedChunk
     end;
     if truthy (Config.limit config)
     then sql [" limit "; ""] [embed (Config.limit config)] else UndefinedChunk;
     if truthy (Config.offset config)
     then sql [" offset "; ""] [embed (Config.offset config)] else UndefinedChunk].

Fixpoint fragment (q : QueryBuilder) : SQLChunk :=
  match q with
  | BaseSelect b => base_sql b
  | PgSetOperator operator isAll l r _ _ _ config =>
      nodeFragment operator isAll (fragment l) (fragment r) config
  end.

(** Every store object embedded in [chunk] has an address below [n]. *)
Fixpoint refsBelow (n : nat) (chunk : SQLChunk) : bool :=
  match chunk with
  | SQLObject cs => forallb (refsBelow n) cs
  | SQLRef a => (a <? n)%nat
  | _ => true
  end.

(** A store in allocation order: a template can only embed objects that
    exist already, so the object at [a] embeds addresses below [a]. *)
Definition ordered (st : Store) : Prop :=
  forall a cs, st !! a = Some cs -> forallb (refsBelow a) cs = true.

(** The three optional clauses, as flattened text. *)
Definition limitClause (config : Config.t) : list Leaf :=
  match Config.limit config with
  | Some v => if truthy (Some v) then [LText " limit "; LParam v] else []
  | None => []
  end.

Definition offsetClause (config : Config.t) : list Leaf :=
  match Config.offset config with
  | Some v => if truthy (Some v) then [LText " offset "; LParam v] else []
  | None => []
  end.

Definition itemLeaves (st : Store) (item : OrderByItem) : list Leaf :=
  match item with
  | OrderByColumn c => flatten st (StringChunk (name c))
  | OrderBySQL a => flatten st (SQLRef a)
  | OrderByAliased _ al => [LName al]
  end.

Fixpoint separated (parts : list (list Leaf)) : list Leaf :=
  match parts with
  | [] => []
  | [part] => part
  | part :: rest => part ++ LText ", " :: separated rest
  end.

Definition orderByClause (st : Store) (config : Config.t) : list Leaf :=
  match Config.orderBy config with
  | Some (item :: items) =>
      LText " order by " :: separated (map (itemLeaves st) (item :: items)) ++ [LText " "]
  | _ => []
  end.

Definition operatorKeyword (operator : SetOperator) (isAll : bool) : string :=
  operatorName operator ++ " " ++ (if isAll then "all " else "").

(** One level of a chain as text: [(acc) keyword (operand)]. *)
Definition parenthesized (keyword : string) (acc operand : list Leaf) : list Leaf :=
  LText "(" :: acc ++ LText ") " :: LText keyword :: LText "(" :: operand ++ [LText ")"].

(** A clause is absent, or opens with its keyword. *)
Definition clauseOf (keyword : string) (clause : list Leaf) : Prop :=
  clause = [] \/ exists body, clause = LText keyword :: body.

(** [combine(l, r)] of the spec: the node over [l] and [r] with the
    canonical state of [l] and no modifier. *)
Definition combine (type : SetOperator) (isAll : bool) (l r : QueryBuilder) : QueryBuilder :=
  let c := getSetOperatorConfig l in
  PgSetOperator type isAll l r (soc_session c) (soc_dialect c)
    (soc_joinsNotNullableMap c) (Config.mk (soc_fields c) None None None).

(** A query whose field names are those of [q0], in the same order. *)
Definition sameShape (q0 q : QueryBuilder) : Prop :=
  keys (getSelectedFields q0) = keys (getSelectedFields q).

#[global] Instance sameShape_dec (q0 q : QueryBuilder) : Decision (sameShape q0 q).
Proof. unfold sameShape. apply _. Defined.

(** The outcome of combining [l] and [r]: there is a node exactly when
    the two name sequences are identical, and the shape error when they
    differ. *)
Definition shapeOutcome (l r : QueryBuilder) (res : Result QueryBuilder) : Prop :=
  ((exists node, res = Return node) <-> sameShape l r) /\
  (~ sameShape l r -> res = Throw ShapeMismatch).

(** [resultFields] of the spec: the fields a query hands to the node
    built over it. *)
Definition resultFields (q : QueryBuilder) : Fields :=
  soc_fields (getSetOperatorConfig q).

(** An operand that passes the validation against the shape [f]: a query
    whose selected field names are those of [f]. *)
Definition hasShape (f : Fields) (v : Value) : Prop :=
  exists q, v = VQuery q /\ keys f = keys (getSelectedFields q).

(** The operands a chain over [q0] accepts.  The right operand is
    compared with what [q0.getSelectedFields()] returns, every later one
    with the selected fields of the running node, which are the
    [resultFields] of [q0]. *)
Definition chainable (q0 : QueryBuilder) (rightSelect : Value)
    (restSelects : list Value) : Prop :=
  hasShape (getSelectedFields q0) rightSelect /\
  Forall (hasShape (resultFields q0)) restSelects.

Definition freeFunctions :
    list (QueryBuilder -> Value -> list Value -> Result QueryBuilder) :=
  [union; unionAll; intersect; intersectAll; except; exceptAll].

Definition fluentMethods : list (QueryBuilder -> Value -> Result QueryBuilder) :=
  [PgSetOperatorBuilder.union; PgSetOperatorBuilder.unionAll;
   PgSetOperatorBuilder.intersect; PgSetOperatorBuilder.intersectAll;
   PgSetOperatorBuilder.except; PgSetOperatorBuilder.exceptAll].

(** The six helpers as a function operand finds them in the registry,
    in the order of [freeFunctions]. *)
Definition registryHelpers :
    list (PgSetOperators.t -> QueryBuilder -> QueryBuilder -> list QueryBuilder ->
          Result QueryBuilder) :=
  [PgSetOperators.union; PgSetOperators.unionAll; PgSetOperators.intersect;
   PgSetOperators.intersectAll; PgSetOperators.except; PgSetOperators.exceptAll].

(** The exception of one combination whose left side has the shape [f]:
    the shape error for a query of another shape, a [TypeError] for an
    operand that is not a query, none for a query of that shape. *)
Definition combinationError (f : Fields) (v : Value) : option Exception :=
  match v with
  | VQuery q =>
      if haveSameKeys f (getSelectedFields q) then None else Some ShapeMismatch
  | VFunction _ | VUndefined => Some TypeError
  end.

Fixpoint firstError (f : Fields) (operands : list Value) : option Exception :=
  match operands with
  | [] => None
  | v :: rest =>
      match combinationError f v with
      | Some e => Some e
      | None => firstError f rest
      end
  end.

(** The exception of the earliest combination that fails when
    [rightSelect] and then [restSelects] are combined onto [q0], if one
    fails. *)
Definition earliestFailure (q0 : QueryBuilder) (rightSelect : Value)
    (restSelects : list Value) : option Exception :=
  match combinationError (getSelectedFields q0) rightSelect with
  | Some e => Some e
  | None => firstError (resultFields q0) restSelects
  end.

(** ** Sample data *)

Module Sample.

Definition quoted (s : string) : string :=
  String (Ascii.ascii_of_nat 34) (s ++ String (Ascii.ascii_of_nat 34) EmptyString).

(** A dialect in the manner of PostgreSQL: names in double quotes, a
    column as table-dot-column, parameters numbered from [$1]. *)
Fixpoint lowerFrom (index : nat) (leaves : list Leaf) : string * list LimitValue :=
  match leaves with
  | [] => ("", [])
  | LText s :: rest =>
      let '(text, ps) := lowerFrom index rest in ((s ++ text)%string, ps)
  | LColumn c :: rest =>
      let '(text, ps) := lowerFrom index rest in
      ((quoted (table c) ++ "." ++ quoted (name c) ++ text)%string, ps)
  | LName al :: rest =>
      let '(text, ps) := lowerFrom index rest in ((quoted al ++ text)%string, ps)
  | LParam v :: rest =>
      let '(text, ps) := lowerFrom (S index) rest in
      (("$" ++ NilEmpty.string_of_uint (Nat.to_uint (S index)) ++ text)%string,
       v :: ps)
  end.

Definition dialect : PgDialect :=
  mkPgDialect (fun leaves =>
    let '(text, ps) := lowerFrom 0 leaves in mkQueryWithTypings text ps []).

Definition users_id := mkPgColumn "users" "id".
Definition users_name := mkPgColumn "users" "name".

Definition selectA : QueryBuilder :=
  BaseSelect (mkBaseQuery
    [("id", ColumnChunk users_id); ("name", ColumnChunk users_name)]
    (Some 1%nat) dialect [("users", true)]
    [("id", ColumnChunk users_id); ("name", ColumnChunk users_name)] (raw "A")).

Definition selectB : QueryBuilder :=
  BaseSelect (mkBaseQuery
    [("id", ColumnChunk users_id); ("name", ColumnChunk users_name)]
    None dialect []
    [("id", ColumnChunk users_id); ("name", ColumnChunk users_name)] (raw "B")).

(** selects [name] before [id] *)
Definition selectNameId : QueryBuilder :=
  BaseSelect (mkBaseQuery
    [("name", ColumnChunk users_name); ("id", ColumnChunk users_id)]
    None dialect []
    [("name", ColumnChunk users_name); ("id", ColumnChunk users_id)] (raw "D")).

(** selects only [id] *)
Definition selectC : QueryBuilder :=
  BaseSelect (mkBaseQuery [("id", ColumnChunk users_id)] None dialect []
    [("id", ColumnChunk users_id)] (raw "C")).

Definition unionAB : QueryBuilder := combine Union false selectA selectB.

(** [sql`lower(${users.name})`] at address 0 and [desc] of it,
    [sql`${...} desc`], at address 1. *)
Definition store : Store :=
  [[StringChunk "lower("; ColumnChunk users_name; StringChunk ")"];
   [StringChunk ""; SQLRef 0; StringChunk " desc"]].

Definition resolveB : Value := VFunction (fun _ => Return selectB).

End Sample.

(** ** Reference definitions for the further properties *)

(** The fluent method applied operand after operand, from [q0] on. *)
Definition fluentChain (type : SetOperator) (isAll : bool) (q0 : QueryBuilder)
    (operands : list QueryBuilder) : Result QueryBuilder :=
  fold_left (fun acc q =>
               let* node := acc in
               PgSetOperatorBuilder.setOperator type isAll node (VQuery q))
    operands (Return q0).

(** The exception a call ends with, if any. *)
Definition thrown {A : Type} (r : Result A) : option Exception :=
  match r with
  | Return _ => None
  | Throw e => Some e
  end.

(** A chunk that is not itself an SQL object. *)
Definition isFlat (chunk : SQLChunk) : bool :=
  match chunk with
  | SQLObject _ | SQLRef _ => false
  | _ => true
  end.

(** The text of a flat chunk once its column, if it is one, is replaced
    by the bare name. *)
Definition bareLeaves (chunk : SQLChunk) : list Leaf :=
  match chunk with
  | StringChunk s => if String.eqb s "" then [] else [LText s]
  | ColumnChunk c => if String.eqb (name c) "" then [] else [LText (name c)]
  | ParamChunk v => [LParam v]
  | AliasedChunk _ al => [LName al]
  | _ => []
  end.

(** The parameters of a flattened fragment, in order. *)
Definition parameters (leaves : list Leaf) : list LimitValue :=
  flat_map (fun leaf => match leaf with LParam v => [v] | _ => [] end) leaves.

(** The parameter a limit or an offset contributes. *)
Definition modifierParameter (v : option LimitValue) : list LimitValue :=
  match v with
  | Some x => if truthy (Some x) then [x] else []
  | None => []
  end.

Module Examples.

(** One entry per field, under its own name. *)
Definition orderSelectedFields (f : Fields) : list (list string * SQLChunk) :=
  map (fun kv => ([fst kv], snd kv)) f.

(** A prepared statement that returns its own text when executed. *)
Definition executePrepared (q : PreparedQuery) (values : list (string * Z))
    : Result string :=
  Return (qt_sql (pq_query q)).

(** [union(selectB, selectA)]: the left operand has no session, the
    right one has. *)
Definition unionBA : QueryBuilder := combine Union false Sample.selectB Sample.selectA.

(** [sql`${users.name} desc`], which is [desc(users.name)], at address 0. *)
Definition store : Store :=
  [[StringChunk ""; ColumnChunk Sample.users_name; StringChunk " desc"]].

End Examples.

(** ** Shape comparison *)

Lemma sameKeyList_eq (l r : list string) : sameKeyList l r = true <-> l = r.
Proof.
  revert r; induction l as [|k l IH]; intros [|k' r]; simpl; try easy.
  rewrite andb_true_iff, String.eqb_eq, IH.
  split; [intros [-> ->]; reflexivity | intros [= -> ->]; auto].
Qed.

Lemma haveSameKeys_eq (l r : Fields) : haveSameKeys l r = true <-> keys l = keys r.
Proof. apply sameKeyList_eq. Qed.

Lemma haveSameKeys_decide (l r : Fields) :
  haveSameKeys l r = bool_decide (keys l = keys r).
Proof.
  destruct (haveSameKeys l r) eqn:E; symmetry.
  - apply bool_decide_eq_true, haveSameKeys_eq, E.
  - apply bool_decide_eq_false. intros H. apply haveSameKeys_eq in H. congruence.
Qed.

Lemma new_PgSetOperator_query type isAll (l r : QueryBuilder) :
  new_PgSetOperator type isAll l (VQuery r) =
  if bool_decide (keys (getSelectedFields l) = keys (getSelectedFields r))
  then Return (combine type isAll l r) else Throw ShapeMismatch.
Proof.
  unfold new_PgSetOperator. rewrite haveSameKeys_decide.
  destruct (bool_decide _); reflexivity.
Qed.

Lemma getSelectedFields_combine type isAll l r :
  getSelectedFields (combine type isAll l r) = resultFields l.
Proof. reflexivity. Qed.

Lemma resultFields_combine type isAll l r :
  resultFields (combine type isAll l r) = resultFields l.
Proof. reflexivity. Qed.

Lemma getSetOperatorConfig_combine type isAll l r :
  getSetOperatorConfig (combine type isAll l r) = getSetOperatorConfig l.
Proof. destruct l; reflexivity. Qed.

(** ** The in-place rewrite *)

Lemma bareName_idem (chunk : SQLChunk) : bareName (bareName chunk) = bareName chunk.
Proof. destruct chunk; reflexivity. Qed.

Lemma rewriteFrom_lookup (n i j : nat) (cs : list SQLChunk) :
  rewriteFrom n i cs !! j =
  if bool_decide (i <= j < i + n) then bareName <$> cs !! j else cs !! j.
Proof.
  revert i cs; induction n as [|n IH]; intros i cs; simpl.
  - rewrite bool_decide_eq_false_2 by lia. reflexivity.
  - rewrite IH. destruct (decide (j = i)) as [->|Hne].
    + rewrite bool_decide_eq_false_2 by lia.
      rewrite bool_decide_eq_true_2 by lia.
      destruct (cs !! i) as [chunk|] eqn:E; [|rewrite E; reflexivity].
      destruct chunk; try (rewrite E; reflexivity).
      rewrite list_lookup_insert_eq; [reflexivity|].
      apply lookup_lt_Some in E. exact E.
    + assert (Hcs : (match cs !! i with
                     | Some (ColumnChunk chunk) => <[i:=raw (name chunk)]> cs
                     | _ => cs
                     end) !! j = cs !! j).
      { destruct (cs !! i) as [[]|]; try reflexivity.
        apply list_lookup_insert_ne. congruence. }
      rewrite Hcs.
      destruct (decide (i <= j < i + S n)).
      * rewrite !bool_decide_eq_true_2 by lia. reflexivity.
      * rewrite !bool_decide_eq_false_2 by lia. reflexivity.
Qed.

(** The index loop is a map over the array. *)
Lemma rewriteQueryChunks_map (cs : list SQLChunk) :
  rewriteQueryChunks cs = map bareName cs.
Proof.
  apply list_eq; intros j. unfold rewriteQueryChunks.
  rewrite rewriteFrom_lookup.
  change (map bareName cs) with (bareName <$> cs). rewrite list_lookup_fmap.
  case_bool_decide as H; [reflexivity|].
  rewrite (lookup_ge_None_2 cs j) by lia. reflexivity.
Qed.

Lemma rewriteObject_length (a : nat) (st : Store) :
  length (rewriteObject a st) = length st.
Proof.
  unfold rewriteObject. destruct (st !! a); [apply length_insert | reflexivity].
Qed.

Lemma rewriteObject_lookup (a b : nat) (st : Store) :
  rewriteObject a st !! b =
  if bool_decide (a = b) then map bareName <$> st !! b else st !! b.
Proof.
  unfold rewriteObject. case_bool_decide as H.
  - subst b. destruct (st !! a) as [cs|] eqn:E.
    + rewrite list_lookup_insert_eq by (apply lookup_lt_Some in E; exact E).
      simpl. rewrite rewriteQueryChunks_map. reflexivity.
    + rewrite E. reflexivity.
  - destruct (st !! a); [|reflexivity].
    apply list_lookup_insert_ne. exact H.
Qed.

Lemma rewriteAll_app (xs ys : list nat) (st : Store) :
  rewriteAll (xs ++ ys) st = rewriteAll ys (rewriteAll xs st).
Proof. apply fold_left_app. Qed.

Lemma rewriteAll_length (addresses : list nat) (st : Store) :
  length (rewriteAll addresses st) = length st.
Proof.
  revert st; induction addresses as [|a l IH]; intros st; simpl; [reflexivity|].
  unfold rewriteAll in *. simpl. rewrite IH. apply rewriteObject_length.
Qed.

Lemma map_bareName_idem (cs : list SQLChunk) :
  map bareName (map bareName cs) = map bareName cs.
Proof. rewrite map_map. apply map_ext. intros; apply bareName_idem. Qed.

Lemma rewriteAll_lookup (addresses : list nat) (b : nat) (st : Store) :
  rewriteAll addresses st !! b =
  if bool_decide (b ∈ addresses) then map bareName <$> st !! b else st !! b.
Proof.
  revert st; induction addresses as [|a l IH]; intros st.
  - reflexivity.
  - change (rewriteAll (a :: l) st) with (rewriteAll l (rewriteObject a st)).
    rewrite IH, rewriteObject_lookup.
    destruct (decide (a = b)) as [->|Hne].
    + rewrite (bool_decide_eq_true_2 (b = b)) by reflexivity.
      rewrite (bool_decide_eq_true_2 (b ∈ b :: l)) by (apply elem_of_cons; auto).
      case_bool_decide; [|reflexivity].
      destruct (st !! b); simpl; [|reflexivity].
      rewrite map_bareName_idem. reflexivity.
    + rewrite (bool_decide_eq_false_2 (a = b)) by exact Hne.
      destruct (decide (b ∈ l)) as [Hin|Hnin].
      * rewrite !bool_decide_eq_true_2;
          [reflexivity | apply elem_of_cons; auto | exact Hin].
      * rewrite !bool_decide_eq_false_2; [reflexivity | | exact Hnin].
        rewrite elem_of_cons. intros [?|?]; [congruence | contradiction].
Qed.

Lemma rewriteAll_idem (addresses : list nat) (st : Store) :
  rewriteAll addresses (rewriteAll addresses st) = rewriteAll addresses st.
Proof.
  apply list_eq; intros b. rewrite !rewriteAll_lookup.
  case_bool_decide; [|reflexivity].
  destruct (st !! b); simpl; [|reflexivity].
  rewrite map_bareName_idem. reflexivity.
Qed.

(** ** What [getSQL] returns and what it writes *)

(** One round of the loop: the entry is pushed, the rest is by induction. *)
Ltac loop_round IH st :=
  specialize (IH st); destruct (orderByLoop _ st); simpl in *; congruence.

Lemma orderByLoop_fst (items : list OrderByItem) (st : Store) :
  fst (orderByLoop items st) = map itemChunk items.
Proof.
  revert st; induction items as [|[c|a|inner al] items IH]; intros st; simpl.
  - reflexivity.
  - loop_round IH st.
  - loop_round IH (rewriteObject a st).
  - loop_round IH st.
Qed.

Lemma orderByLoop_snd (items : list OrderByItem) (st : Store) :
  snd (orderByLoop items st) = rewriteAll (itemAddresses items) st.
Proof.
  revert st; induction items as [|[c|a|inner al] items IH]; intros st; simpl.
  - reflexivity.
  - loop_round IH st.
  - loop_round IH (rewriteObject a st).
  - loop_round IH st.
Qed.

Lemma getSQL_eq (q : QueryBuilder) (st : Store) :
  getSQL q st = (fragment q, rewriteAll (written q) st).
Proof.
  revert st; induction q as [b|operator isAll l IHl r IHr s d j config];
    intros st; [reflexivity|].
  cbn [getSQL fragment written].
  rewrite IHl, IHr, !rewriteAll_app.
  set (st2 := rewriteAll (written r) (rewriteAll (written l) st)).
  unfold nodeFragment.
  destruct (Config.orderBy config) as [items|]; [|reflexivity].
  destruct items as [|item items]; [reflexivity|].
  cbn [length Nat.ltb Nat.leb].
  pose proof (orderByLoop_fst (item :: items) st2) as Hf.
  pose proof (orderByLoop_snd (item :: items) st2) as Hs.
  destruct (orderByLoop (item :: items) st2) as [values st'].
  simpl in Hf, Hs. subst values st'. reflexivity.
Qed.

(** A second call finds the store as the first one left it and returns
    the same fragment. *)
Lemma getSQL_again (q : QueryBuilder) (st : Store) :
  getSQL q (snd (getSQL q st)) = getSQL q st.
Proof. rewrite !getSQL_eq. simpl. rewrite rewriteAll_idem. reflexivity. Qed.

(** ** Flattening, chunk by chunk *)

Lemma flattenFuel_object (st : Store) (fuel : nat) (cs : list SQLChunk) :
  flattenFuel st fuel (SQLObject cs) = flat_map (flattenFuel st fuel) cs.
Proof. destruct fuel; reflexivity. Qed.

Lemma flattenFuel_string (st : Store) (fuel : nat) (s : string) :
  flattenFuel st fuel (StringChunk s) = if String.eqb s "" then [] else [LText s].
Proof. destruct fuel; reflexivity. Qed.

Lemma flattenFuel_undefined (st : Store) (fuel : nat) :
  flattenFuel st fuel UndefinedChunk = [].
Proof. destruct fuel; reflexivity. Qed.

Lemma flattenFuel_aliased (st : Store) (fuel : nat) inner al :
  flattenFuel st fuel (AliasedChunk inner al) = [LName al].
Proof. destruct fuel; reflexivity. Qed.

Lemma flattenFuel_embed (st : Store) (fuel : nat) (v : LimitValue) :
  flattenFuel st fuel (embed (Some v)) = [LParam v].
Proof. destruct fuel; reflexivity. Qed.

Lemma flatten_object (st : Store) (cs : list SQLChunk) :
  flatten st (SQLObject cs) = flat_map (flatten st) cs.
Proof. apply flattenFuel_object. Qed.

Lemma operatorKeyword_nonempty operator isAll :
  String.eqb (operatorKeyword operator isAll) "" = false.
Proof. destruct operator, isAll; reflexivity. Qed.

Lemma flatten_string (st : Store) (s : string) :
  flatten st (StringChunk s) = if String.eqb s "" then [] else [LText s].
Proof. apply flattenFuel_string. Qed.

Lemma flatten_undefined (st : Store) : flatten st UndefinedChunk = [].
Proof. apply flattenFuel_undefined. Qed.

Lemma flatten_aliased (st : Store) inner al :
  flatten st (AliasedChunk inner al) = [LName al].
Proof. apply flattenFuel_aliased. Qed.

Lemma flatten_embed (st : Store) (v : LimitValue) :
  flatten st (embed (Some v)) = [LParam v].
Proof. apply flattenFuel_embed. Qed.

Create Rewrite HintDb flatten.
#[local] Hint Rewrite flatten_object flatten_string flatten_undefined
  flatten_aliased flatten_embed : flatten.

(** Open the templates at the head of the goal and flatten their chunks. *)
Ltac flatten_template :=
  unfold raw, sql; cbn [length Nat.ltb Nat.leb orb interleave app];
  repeat (autorewrite with flatten; cbn [flat_map String.eqb app]).

Lemma flatten_itemChunk (st : Store) (item : OrderByItem) :
  flatten st (itemChunk item) = itemLeaves st item.
Proof.
  destruct item as [c|a|inner al]; unfold itemChunk, itemLeaves;
    flatten_template; rewrite ?app_nil_r; reflexivity.
Qed.

Lemma flatten_join (st : Store) (items : list OrderByItem) :
  flatten st (join (map itemChunk items) (sql [", "] [])) =
  separated (map (itemLeaves st) items).
Proof.
  unfold join. rewrite flatten_object.
  induction items as [|item items IH]; [reflexivity|].
  destruct items as [|item' items].
  - simpl. rewrite flatten_itemChunk, app_nil_r. reflexivity.
  - change (interpose (map itemChunk (item :: item' :: items)) (sql [", "] []))
      with (itemChunk item :: sql [", "] [] ::
            interpose (map itemChunk (item' :: items)) (sql [", "] [])).
    cbn [flat_map]. rewrite IH, flatten_itemChunk.
    change (sql [", "] []) with (SQLObject [StringChunk ", "]).
    rewrite flatten_object. cbn [flat_map]. rewrite flatten_string.
    reflexivity.
Qed.

Lemma flatten_modifier (st : Store) (keyword : string) (v : option LimitValue) :
  String.eqb keyword "" = false ->
  flatten st (if truthy v then sql [keyword; ""] [embed v] else UndefinedChunk) =
  match v with
  | Some x => if truthy (Some x) then [LText keyword; LParam x] else []
  | None => []
  end.
Proof.
  intros Hk. destruct v as [x|]; [|apply flatten_undefined].
  destruct (truthy (Some x)); [|apply flatten_undefined].
  flatten_template. rewrite Hk. reflexivity.
Qed.

Lemma flatten_orderBySql (st : Store) (config : Config.t) :
  flatten st
    match Config.orderBy config with
    | Some items =>
        if (0 <? length items)%nat
        then sql [" order by "; " "] [join (map itemChunk items) (sql [", "] [])]
        else UndefinedChunk
    | None => UndefinedChunk
    end = orderByClause st config.
Proof.
  unfold orderByClause.
  destruct (Config.orderBy config) as [[|item items]|]; try apply flatten_undefined.
  cbn [length Nat.ltb Nat.leb]. unfold sql at 1.
  cbn [length Nat.ltb Nat.leb orb interleave app].
  rewrite flatten_object. cbn [flat_map].
  rewrite !flatten_string, flatten_join. reflexivity.
Qed.

(** The layout of one node's fragment. *)
Lemma flatten_nodeFragment (st : Store) operator isAll (l r : SQLChunk) config :
  flatten st (nodeFragment operator isAll l r config) =
  LText "(" :: flatten st l ++
  LText ") " :: LText (operatorKeyword operator isAll) ::
  LText "(" :: flatten st r ++
  LText ")" :: orderByClause st config ++ limitClause config ++ offsetClause config.
Proof.
  unfold nodeFragment, raw, sql at 1 2 3.
  cbn [length Nat.ltb Nat.leb orb interleave app].
  rewrite flatten_object. cbn [flat_map].
  rewrite !flatten_object. cbn [flat_map].
  rewrite !flatten_string. cbn [String.eqb Ascii.eqb Bool.eqb app].
  fold (operatorKeyword operator isAll). rewrite operatorKeyword_nonempty.
  change (match length ?x with 0 => false | S _ => true end)
    with (0 <? length x)%nat.
  rewrite flatten_orderBySql.
  rewrite (flatten_modifier st " limit " (Config.limit config) eq_refl).
  rewrite (flatten_modifier st " offset " (Config.offset config) eq_refl).
  fold (limitClause config) (offsetClause config).
  rewrite !app_nil_r, <- !app_assoc. reflexivity.
Qed.

(** ** Fuel *)

Lemma SQLChunk_nested_ind (P : SQLChunk -> Prop) :
  (forall s, P (StringChunk s)) ->
  (forall c, P (ColumnChunk c)) ->
  (forall v, P (ParamChunk v)) ->
  (forall inner al, P (AliasedChunk inner al)) ->
  (forall cs, List.Forall P cs -> P (SQLObject cs)) ->
  (forall a, P (SQLRef a)) ->
  P UndefinedChunk ->
  forall chunk, P chunk.
Proof.
  intros Hs Hc Hv Ha Ho Hr Hu. fix IH 1.
  intros [s|c|v|inner al|cs|a|];
    [apply Hs | apply Hc | apply Hv | apply Ha | | apply Hr | apply Hu].
  apply Ho. induction cs as [|x cs IHcs]; constructor; [apply IH | exact IHcs].
Qed.

Lemma flat_map_Forall_ext {A B : Type} (f g : A -> list B) (l : list A) :
  List.Forall (fun x => f x = g x) l -> flat_map f l = flat_map g l.
Proof.
  induction 1 as [|x l Hx _ IH]; simpl; [reflexivity|]. rewrite Hx, IH. reflexivity.
Qed.

(** In an ordered store, a fragment that embeds addresses below [n]
    flattens the same with any two amounts of fuel from [n] on. *)
Lemma flattenFuel_enough (st : Store) :
  ordered st ->
  forall n chunk fuel1 fuel2,
    refsBelow n chunk = true -> n <= fuel1 -> n <= fuel2 ->
    flattenFuel st fuel1 chunk = flattenFuel st fuel2 chunk.
Proof.
  intros Hst n. induction n as [n IHn] using lt_wf_ind.
  intros chunk. induction chunk as [s|c|v|inner al|cs IHcs|a|]
    using SQLChunk_nested_ind; intros fuel1 fuel2 Hb H1 H2.
  - rewrite !flattenFuel_string. reflexivity.
  - destruct fuel1, fuel2; reflexivity.
  - destruct fuel1, fuel2; reflexivity.
  - rewrite !flattenFuel_aliased. reflexivity.
  - rewrite !flattenFuel_object. apply flat_map_Forall_ext.
    simpl in Hb. rewrite forallb_forall in Hb.
    rewrite List.Forall_forall in IHcs |- *.
    intros x Hx. apply IHcs; auto.
  - simpl in Hb. apply Nat.ltb_lt in Hb.
    destruct fuel1 as [|fuel1]; [lia|]. destruct fuel2 as [|fuel2]; [lia|].
    simpl. destruct (st !! a) as [cs|] eqn:E; [|reflexivity].
    apply flat_map_Forall_ext. rewrite List.Forall_forall. intros x Hx.
    apply (IHn a Hb); [|lia..].
    specialize (Hst a cs E). rewrite forallb_forall in Hst. apply Hst, Hx.
  - rewrite !flattenFuel_undefined. reflexivity.
Qed.

(** The size of the store is fuel enough: more fuel changes nothing. *)
Lemma flatten_fuel_enough (st : Store) (chunk : SQLChunk) (fuel : nat) :
  ordered st -> refsBelow (length st) chunk = true -> length st <= fuel ->
  flattenFuel st fuel chunk = flatten st chunk.
Proof.
  intros Hst Hb Hf. unfold flatten.
  apply (flattenFuel_enough st Hst (length st)); auto.
Qed.

Lemma refsBelow_bareName (n : nat) (chunk : SQLChunk) :
  refsBelow n chunk = true -> refsBelow n (bareName chunk) = true.
Proof. destruct chunk; simpl; auto. Qed.

(** [getSQL] keeps the store ordered. *)
Lemma rewriteAll_ordered (addresses : list nat) (st : Store) :
  ordered st -> ordered (rewriteAll addresses st).
Proof.
  intros Hst a cs. rewrite rewriteAll_lookup.
  case_bool_decide; [|apply Hst].
  destruct (st !! a) as [cs0|] eqn:E; [|discriminate].
  intros [= <-]. specialize (Hst a cs0 E).
  rewrite forallb_forall in Hst |- *.
  intros x Hx. apply in_map_iff in Hx. destruct Hx as (y & <- & Hy).
  apply refsBelow_bareName, Hst, Hy.
Qed.

Lemma getSQL_ordered (q : QueryBuilder) (st : Store) :
  ordered st -> ordered (snd (getSQL q st)).
Proof. rewrite getSQL_eq. apply rewriteAll_ordered. Qed.

(** ** Chains *)

Lemma hasShape_query (f : Fields) (q : QueryBuilder) :
  hasShape f (VQuery q) <-> keys f = keys (getSelectedFields q).
Proof.
  split; [intros (q' & [= <-] & H); exact H | intros H; exists q; auto].
Qed.

Lemma map_VQuery_inj (xs ys : list QueryBuilder) :
  map VQuery xs = map VQuery ys -> xs = ys.
Proof.
  revert ys; induction xs as [|x xs IH]; intros [|y ys]; simpl; try easy.
  intros [= -> H]. f_equal. apply IH, H.
Qed.

Section Chain.

Variables (type : SetOperator) (isAll : bool).

Lemma chainable_combine l r select rest :
  chainable (combine type isAll l r) select rest <->
  Forall (hasShape (resultFields l)) (select :: rest).
Proof.
  unfold chainable.
  rewrite getSelectedFields_combine, resultFields_combine, Forall_cons.
  reflexivity.
Qed.

Lemma new_PgSetOperator_same l r :
  sameShape l r ->
  new_PgSetOperator type isAll l (VQuery r) = Return (combine type isAll l r).
Proof.
  intros H. rewrite new_PgSetOperator_query, bool_decide_eq_true_2; auto.
Qed.

Lemma new_PgSetOperator_differ l r :
  ~ sameShape l r ->
  new_PgSetOperator type isAll l (VQuery r) = Throw ShapeMismatch.
Proof.
  intros H. rewrite new_PgSetOperator_query, bool_decide_eq_false_2; auto.
Qed.

Lemma new_PgSetOperator_outcome l v :
  match new_PgSetOperator type isAll l v with
  | Return node => exists q, v = VQuery q /\ sameShape l q /\ node = combine type isAll l q
  | Throw _ => ~ hasShape (getSelectedFields l) v
  end.
Proof.
  destruct v as [q|f|].
  - destruct (decide (sameShape l q)) as [H|H].
    + rewrite new_PgSetOperator_same by exact H. eauto.
    + rewrite new_PgSetOperator_differ by exact H.
      rewrite hasShape_query. exact H.
  - simpl. intros (q & [=] & _).
  - simpl. intros (q & [=] & _).
Qed.

Lemma new_PgSetOperator_not_missing (l : QueryBuilder) (v : Value) :
  new_PgSetOperator type isAll l v <> Throw MissingOperand.
Proof.
  destruct v as [q|f|]; [|discriminate..].
  rewrite new_PgSetOperator_query. case_bool_decide; discriminate.
Qed.

(** A chain call returns the left fold of [combine] over its operands
    when they are chainable, and throws when they are not. *)
Lemma setOperator_outcome (rest : list Value) :
  forall l r,
  match setOperator type isAll l r rest with
  | Return node =>
      chainable l r rest /\
      exists qs, r :: rest = map VQuery qs /\
                 node = fold_left (combine type isAll) qs l
  | Throw _ => ~ chainable l r rest
  end.
Proof.
  induction rest as [|select rest IH]; intros l r.
  - cbn [setOperator]. pose proof (new_PgSetOperator_outcome l r) as H.
    destruct (new_PgSetOperator type isAll l r) as [node|e].
    + destruct H as (q & -> & Hq & ->). split.
      * split; [apply hasShape_query, Hq | constructor].
      * exists [q]. split; reflexivity.
    + intros [Hr _]. auto.
  - cbn [setOperator]. destruct (falsy select) eqn:Hs.
    + intros [_ HF]. inversion HF as [|? ? (q & -> & _) _]; subst. discriminate.
    + pose proof (new_PgSetOperator_outcome l r) as H.
      destruct (new_PgSetOperator type isAll l r) as [node|e]; cbn [bind].
      * destruct H as (q & -> & Hq & ->).
        specialize (IH (combine type isAll l q) select).
        destruct (setOperator type isAll (combine type isAll l q) select rest);
          rewrite chainable_combine in IH.
        -- destruct IH as (HF & qs & E & ->). split.
           ++ split; [apply hasShape_query, Hq | exact HF].
           ++ exists (q :: qs). simpl. rewrite E. split; reflexivity.
        -- intros [_ HF]. auto.
      * intros [Hr _]. auto.
Qed.

Lemma setOperator_chainable (q0 q1 : QueryBuilder) (rest : list QueryBuilder) :
  chainable q0 (VQuery q1) (map VQuery rest) ->
  setOperator type isAll q0 (VQuery q1) (map VQuery rest) =
  Return (fold_left (combine type isAll) (q1 :: rest) q0).
Proof.
  intros H.
  pose proof (setOperator_outcome (map VQuery rest) q0 (VQuery q1)) as Ho.
  destruct (setOperator type isAll q0 (VQuery q1) (map VQuery rest)) as [node|e];
    [|contradiction].
  destruct Ho as (_ & qs & E & ->).
  change (VQuery q1 :: map VQuery rest) with (map VQuery (q1 :: rest)) in E.
  apply map_VQuery_inj in E. subst qs. reflexivity.
Qed.

Lemma setOperator_undefined (rest : list Value) :
  In VUndefined rest ->
  forall l r, exists e, setOperator type isAll l r rest = Throw e.
Proof.
  intros Hin l r.
  pose proof (setOperator_outcome rest l r) as H.
  destruct (setOperator type isAll l r rest) as [node|e]; [|eauto].
  destruct H as (_ & qs & E & _). exfalso.
  assert (Hin' : In VUndefined (r :: rest)) by (right; exact Hin).
  rewrite E in Hin'. apply in_map_iff in Hin'.
  destruct Hin' as (q & [=] & _).
Qed.

Lemma setOperator_function_right (l : QueryBuilder) f (rest : list Value) :
  exists e, setOperator type isAll l (VFunction f) rest = Throw e.
Proof.
  destruct rest as [|select rest]; cbn; [eauto|].
  destruct (falsy select); eauto.
Qed.

Lemma setOperator_function_rest f (pre post : list Value) :
  forall (l : QueryBuilder) (r : Value),
  exists e, setOperator type isAll l r (pre ++ VFunction f :: post) = Throw e.
Proof.
  induction pre as [|p pre IH]; intros l r.
  - cbn [app setOperator falsy].
    destruct (new_PgSetOperator type isAll l r) as [node|e]; cbn [bind]; [|eauto].
    apply setOperator_function_right.
  - cbn [app setOperator]. destruct (falsy p); [eauto|].
    destruct (new_PgSetOperator type isAll l r) as [node|e]; cbn [bind]; [|eauto].
    apply IH.
Qed.

Lemma getSetOperatorConfig_chain (qs : list QueryBuilder) :
  forall l, getSetOperatorConfig (fold_left (combine type isAll) qs l) =
            getSetOperatorConfig l.
Proof.
  induction qs as [|q qs IH]; intros l; simpl; [reflexivity|].
  rewrite IH. apply getSetOperatorConfig_combine.
Qed.

Lemma getSelectedFields_chain (q : QueryBuilder) (qs : list QueryBuilder) :
  forall l, getSelectedFields (fold_left (combine type isAll) (q :: qs) l) =
            resultFields l.
Proof.
  revert q; induction qs as [|q' qs IH]; intros q l; [reflexivity|].
  change (fold_left (combine type isAll) (q :: q' :: qs) l)
    with (fold_left (combine type isAll) (q' :: qs) (combine type isAll l q)).
  rewrite IH. reflexivity.
Qed.

Lemma flatten_combine (st : Store) (l r : QueryBuilder) :
  flatten st (fragment (combine type isAll l r)) =
  parenthesized (operatorKeyword type isAll)
    (flatten st (fragment l)) (flatten st (fragment r)).
Proof.
  unfold combine. cbn [fragment]. rewrite flatten_nodeFragment.
  unfold parenthesized. reflexivity.
Qed.

Lemma flatten_chain (st : Store) (qs : list QueryBuilder) :
  forall l,
  flatten st (fragment (fold_left (combine type isAll) qs l)) =
  fold_left (fun acc q =>
               parenthesized (operatorKeyword type isAll) acc (flatten st (fragment q)))
    qs (flatten st (fragment l)).
Proof.
  induction qs as [|q qs IH]; intros l; simpl; [reflexivity|].
  rewrite IH, flatten_combine. reflexivity.
Qed.

Lemma shapeOutcome_new (l r : QueryBuilder) :
  shapeOutcome l r (new_PgSetOperator type isAll l (VQuery r)).
Proof.
  unfold shapeOutcome. destruct (decide (sameShape l r)) as [H|H].
  - rewrite new_PgSetOperator_same by exact H.
    split; [split; eauto | contradiction].
  - rewrite new_PgSetOperator_differ by exact H.
    split; [split; [intros [node [=]] | contradiction] | reflexivity].
Qed.

End Chain.

Lemma itemAddresses_In (items : list OrderByItem) (a : nat) :
  In (OrderBySQL a) items -> a ∈ itemAddresses items.
Proof.
  induction items as [|[c|b|inner al] items IH]; simpl; [tauto| | |].
  - intros [[=]|H]; auto.
  - intros [[= ->]|H]; apply elem_of_cons; auto.
  - intros [[=]|H]; auto.
Qed.

(** Which modifiers show in the text: a non-empty ORDER BY list, and a
    limit or offset that is truthy. *)
Lemma modifier_clause_presence (st : Store) (config : Config.t) :
  (orderByClause st config = [] <->
     Config.orderBy config = None \/ Config.orderBy config = Some []) /\
  (limitClause config = [] <-> truthy (Config.limit config) = false) /\
  (offsetClause config = [] <-> truthy (Config.offset config) = false).
Proof.
  unfold orderByClause, limitClause, offsetClause. repeat split.
  - destruct (Config.orderBy config) as [[|item items]|]; auto; discriminate.
  - destruct (Config.orderBy config) as [[|item items]|]; auto;
      intros [H|H]; discriminate.
  - destruct (Config.limit config) as [v|]; [|reflexivity].
    destruct (truthy (Some v)); [discriminate | reflexivity].
  - destruct (Config.limit config) as [v|]; [|reflexivity].
    destruct (truthy (Some v)); [discriminate | reflexivity].
  - destruct (Config.offset config) as [v|]; [|reflexivity].
    destruct (truthy (Some v)); [discriminate | reflexivity].
  - destruct (Config.offset config) as [v|]; [|reflexivity].
    destruct (truthy (Some v)); [discriminate | reflexivity].
Qed.

(** ** Operands that are not queries *)

Section Operands.

Variables (type : SetOperator) (isAll : bool).

(** A function as right operand is handed to the constructor as it is. *)
Lemma setOperator_function_right_eq (l : QueryBuilder) f (rest : list Value) :
  setOperator type isAll l (VFunction f) rest =
  match rest with
  | [] => Throw TypeError
  | select :: _ => if falsy select then Throw MissingOperand else Throw TypeError
  end.
Proof.
  destruct rest as [|select rest]; [reflexivity|].
  cbn [setOperator]. destruct (falsy select); reflexivity.
Qed.

(** Nor is a function among the rest operands applied: any other
    function in its place gives the same result. *)
Lemma setOperator_function_rest_indep f g (pre post : list Value) :
  forall (l : QueryBuilder) (r : Value),
  setOperator type isAll l r (pre ++ VFunction f :: post) =
  setOperator type isAll l r (pre ++ VFunction g :: post).
Proof.
  induction pre as [|p pre IH]; intros l r.
  - cbn [app setOperator falsy].
    destruct (new_PgSetOperator type isAll l r) as [node|e]; cbn [bind];
      [|reflexivity].
    rewrite !setOperator_function_right_eq. reflexivity.
  - cbn [app setOperator]. destruct (falsy p); [reflexivity|].
    destruct (new_PgSetOperator type isAll l r) as [node|e]; cbn [bind];
      [apply IH | reflexivity].
Qed.

Lemma new_PgSetOperator_thrown_eq (l : QueryBuilder) (v : Value) :
  thrown (new_PgSetOperator type isAll l v) =
  combinationError (getSelectedFields l) v.
Proof.
  destruct v as [q|f|]; try reflexivity.
  unfold new_PgSetOperator, combinationError.
  destruct (haveSameKeys _ _); reflexivity.
Qed.

(** Over operands none of which is undefined, a chain call ends with the
    exception of the earliest failing combination. *)
Lemma setOperator_earliestFailure (rest : list Value) :
  Forall (fun v => falsy v = false) rest ->
  forall (l : QueryBuilder) (r : Value),
  thrown (setOperator type isAll l r rest) = earliestFailure l r rest.
Proof.
  unfold earliestFailure.
  induction 1 as [|p rest Hp Hrest IH]; intros l r.
  - cbn [setOperator firstError]. rewrite new_PgSetOperator_thrown_eq.
    destruct (combinationError _ r); reflexivity.
  - cbn [setOperator]. rewrite Hp.
    pose proof (new_PgSetOperator_thrown_eq l r) as Hn.
    pose proof (new_PgSetOperator_outcome type isAll l r) as Ho.
    destruct (new_PgSetOperator type isAll l r) as [node|e]; cbn [bind thrown] in *.
    + rewrite <- Hn. destruct Ho as (q & _ & _ & ->).
      rewrite IH, getSelectedFields_combine, resultFields_combine. reflexivity.
    + rewrite <- Hn. reflexivity.
Qed.

(** Up to the first undefined rest operand the call proceeds as the
    chain over the operands before the one that precedes it. *)
Lemma setOperator_before_undefined (pre post : list Value) :
  Forall (fun v => falsy v = false) pre ->
  forall (l : QueryBuilder) (r : Value),
  setOperator type isAll l r (pre ++ VUndefined :: post) =
  match pre with
  | [] => Throw MissingOperand
  | _ :: _ =>
      let* built := setOperator type isAll l r (removelast pre) in
      Throw MissingOperand
  end.
Proof.
  induction 1 as [|p pre Hp Hpre IH]; intros l r; [reflexivity|].
  cbn [app setOperator]. rewrite Hp.
  destruct pre as [|p' pre].
  - cbn [app setOperator falsy removelast].
    destruct (new_PgSetOperator type isAll l r); reflexivity.
  - change (removelast (p :: p' :: pre)) with (p :: removelast (p' :: pre)).
    cbn [setOperator]. rewrite Hp.
    destruct (new_PgSetOperator type isAll l r) as [node|e]; cbn [bind];
      [apply IH | reflexivity].
Qed.

Lemma Forall_defined_removelast (pre : list Value) :
  Forall (fun v => falsy v = false) pre ->
  Forall (fun v => falsy v = false) (removelast pre).
Proof.
  induction 1 as [|p pre Hp Hpre IH]; [constructor|].
  destruct pre as [|p' pre]; [constructor|].
  change (removelast (p :: p' :: pre)) with (p :: removelast (p' :: pre)).
  constructor; assumption.
Qed.

End Operands.

(** ** The claims *)

(** C1: for two operand queries, each of the six free functions and each
    of the six fluent methods builds a node exactly when the two
    selected-field name sequences are identical (same names, same
    order); when they differ in any way the shape error is thrown and
    there is no node.  So it is for the same names in another order, for
    fewer names and for more names. *)
Theorem construct_iff_same_field_names (l r : QueryBuilder) :
  Forall (fun f => shapeOutcome l r (f l (VQuery r) [])) freeFunctions /\
  Forall (fun m => shapeOutcome l r (m l (VQuery r))) fluentMethods /\
  union Sample.selectA (VQuery Sample.selectB) [] = Return Sample.unionAB /\
  union Sample.selectA (VQuery Sample.selectNameId) [] = Throw ShapeMismatch /\
  union Sample.selectA (VQuery Sample.selectC) [] = Throw ShapeMismatch /\
  union Sample.selectC (VQuery Sample.selectA) [] = Throw ShapeMismatch.
Proof.
  split; [|split]; repeat constructor; apply shapeOutcome_new.
Qed.

(** C2, where the code departs from it: the ORDER BY entry is
    [desc(sql`lower(${users.name})`)], that is [sql`${...} desc`] around
    an expression that holds the column.  The column is one level below
    the top-level chunks of the entry, the loop does not reach it, the
    store is left as it was and the flattened text keeps the qualified
    column reference.  The same expression given directly as the entry
    has its column replaced by the bare name. *)
Theorem nested_column_stays_qualified :
  getSQL (orderBy [OrderBySQL 1] Sample.unionAB) Sample.store
    = (fragment (orderBy [OrderBySQL 1] Sample.unionAB), Sample.store) /\
  flatten Sample.store (fragment (orderBy [OrderBySQL 1] Sample.unionAB)) =
    [LText "("; LText "A"; LText ") "; LText "union "; LText "("; LText "B";
     LText ")"; LText " order by ";
     LText "lower("; LColumn Sample.users_name; LText ")"; LText " desc";
     LText " "] /\
  sql_text (fst (toSQL (orderBy [OrderBySQL 1] Sample.unionAB) Sample.store)) =
    ("(A) union (B) order by lower(" ++ Sample.quoted "users" ++ "."
       ++ Sample.quoted "name" ++ ") desc ")%string /\
  sql_text (fst (toSQL (orderBy [OrderBySQL 0] Sample.unionAB) Sample.store)) =
    "(A) union (B) order by lower(name) ".
Proof. repeat split. Qed.

(** C3, where the code departs from it: a limit or an offset of zero is
    set and defined, yet the node renders as if it had never been set;
    [union(selectA, selectB).limit(0)] has no LIMIT clause. *)
Theorem zero_limit_and_offset_dropped operator isAll (l r : QueryBuilder)
    session dialect jnm fields lim items off (st : Store) :
  getSQL (PgSetOperator operator isAll l r session dialect jnm
            (Config.mk fields (Some (LimitNumber 0)) items off)) st =
  getSQL (PgSetOperator operator isAll l r session dialect jnm
            (Config.mk fields None items off)) st /\
  getSQL (PgSetOperator operator isAll l r session dialect jnm
            (Config.mk fields lim items (Some (LimitNumber 0)))) st =
  getSQL (PgSetOperator operator isAll l r session dialect jnm
            (Config.mk fields lim items None)) st /\
  fst (toSQL (limit (LimitNumber 0) Sample.unionAB) []) =
    mkQuery "(A) union (B)" [] /\
  fst (toSQL (offset (LimitNumber 0) Sample.unionAB) []) =
    mkQuery "(A) union (B)" [] /\
  fst (toSQL (offset (LimitNumber 5) (limit (LimitNumber 10) Sample.unionAB)) []) =
    mkQuery "(A) union (B) limit $1 offset $2" [LimitNumber 10; LimitNumber 5].
Proof. repeat split. Qed.

(** C4: the fragment of a node flattens to the parenthesized left
    fragment, the lowercase operator keyword followed by [all ] exactly
    when [isAll] is set, the parenthesized right fragment, and then the
    ORDER BY, LIMIT and OFFSET clauses in that order, each of them either
    absent or opening with its own keyword. *)
Theorem getSQL_rendering_order operator isAll (l r : QueryBuilder)
    session dialect jnm config (st : Store) :
  let node := PgSetOperator operator isAll l r session dialect jnm config in
  let st' := snd (getSQL node st) in
  flatten st' (fst (getSQL node st)) =
    LText "(" :: flatten st' (fst (getSQL l st)) ++
    LText ") " ::
    LText (operatorName operator ++ " " ++ (if isAll then "all " else "")) ::
    LText "(" :: flatten st' (fst (getSQL r st)) ++
    LText ")" ::
    orderByClause st' config ++ limitClause config ++ offsetClause config
  /\ clauseOf " order by " (orderByClause st' config)
  /\ clauseOf " limit " (limitClause config)
  /\ clauseOf " offset " (offsetClause config).
Proof.
  intros node st'. subst node. rewrite !getSQL_eq. cbn [fst fragment].
  split; [apply flatten_nodeFragment|].
  unfold clauseOf, orderByClause, limitClause, offsetClause.
  repeat split.
  - destruct (Config.orderBy config) as [[|item items]|]; eauto.
  - destruct (Config.limit config) as [v|]; [destruct (truthy (Some v))|]; eauto.
  - destruct (Config.offset config) as [v|]; [destruct (truthy (Some v))|]; eauto.
Qed.

(** C5: operands [q0, q1, ..., qn] that pass the shape validation are
    combined by a free function into the left-deep tree
    [combine (... (combine (combine q0 q1) q2) ...) qn], whose fragment
    flattens to [((...(q0 op q1) op q2)...) op qn] with parentheses
    around both sides at every level. *)
Theorem chain_left_deep type isAll (q0 q1 : QueryBuilder)
    (rest : list QueryBuilder) (st : Store) :
  chainable q0 (VQuery q1) (map VQuery rest) ->
  setOperator type isAll q0 (VQuery q1) (map VQuery rest) =
    Return (fold_left (combine type isAll) (q1 :: rest) q0) /\
  (forall st' : Store,
    flatten st' (fst (getSQL (fold_left (combine type isAll) (q1 :: rest) q0) st)) =
    fold_left (fun acc q =>
                 parenthesized (operatorName type ++ " " ++ (if isAll then "all " else ""))
                   acc (flatten st' (fst (getSQL q st))))
      (q1 :: rest) (flatten st' (fst (getSQL q0 st)))).
Proof.
  intros H. split; [apply setOperator_chainable, H|].
  clear H. intros st'. rewrite !getSQL_eq. cbn [fst]. rewrite flatten_chain.
  generalize (flatten st' (fragment q0)). generalize (q1 :: rest) as operands.
  induction operands as [|q qs IH]; intros acc; [reflexivity|].
  cbn [fold_left]. rewrite IH, getSQL_eq. reflexivity.
Qed.

Lemma chain_left_deep_witness :
  union Sample.selectA (VQuery Sample.selectB) [VQuery Sample.selectA] =
  Return (combine Union false (combine Union false Sample.selectA Sample.selectB)
            Sample.selectA).
Proof.
  apply (chain_left_deep Union false Sample.selectA Sample.selectB
           [Sample.selectA] []).
  split; [|constructor; [|constructor]]; eexists; split; reflexivity.
Defined.

(** C6, as the code has it: a fluent method takes a literal query or a
    function; the function is applied to the registry first, and only
    its result is validated and combined; each helper it finds in the
    registry is the free function of that name.  The free functions take
    literal queries.  A function operand is never applied by them: as
    right operand it goes to the constructor as it is and the call ends
    in a [TypeError] (or in the missing-operand error of an undefined
    first rest operand); as a rest operand it makes the call throw, and
    the result is the same whatever the function is. *)
Theorem operand_resolution type isAll (this q : QueryBuilder)
    (f g : PgSetOperators.t -> Result QueryBuilder)
    (r : Value) (rest pre post : list Value) :
  PgSetOperatorBuilder.setOperator type isAll this (VFunction f) =
    (let* resolved := f getPgSetOperators in
     new_PgSetOperator type isAll this (VQuery resolved)) /\
  PgSetOperatorBuilder.setOperator type isAll this (VQuery q) =
    new_PgSetOperator type isAll this (VQuery q) /\
  Forall2 (fun helper free =>
             forall (l r' : QueryBuilder) (operands : list QueryBuilder),
             PgSetOperatorBuilder.setOperator type isAll this
               (VFunction (fun registry => helper registry l r' operands)) =
             (let* inner := free l (VQuery r') (map VQuery operands) in
              new_PgSetOperator type isAll this (VQuery inner)))
    registryHelpers freeFunctions /\
  setOperator type isAll this (VQuery q) [] =
    new_PgSetOperator type isAll this (VQuery q) /\
  setOperator type isAll this (VFunction f) rest =
    match rest with
    | [] => Throw TypeError
    | select :: _ => if falsy select then Throw MissingOperand else Throw TypeError
    end /\
  (exists e, setOperator type isAll this r (pre ++ VFunction f :: post) = Throw e) /\
  setOperator type isAll this r (pre ++ VFunction f :: post) =
    setOperator type isAll this r (pre ++ VFunction g :: post).
Proof.
  split.
  { unfold PgSetOperatorBuilder.setOperator.
    destruct (f getPgSetOperators); reflexivity. }
  split; [reflexivity|]. split.
  { unfold registryHelpers, freeFunctions.
    repeat (apply List.Forall2_cons || apply List.Forall2_nil);
      intros l r' operands; unfold PgSetOperatorBuilder.setOperator;
      cbn [getPgSetOperators PgSetOperators.union PgSetOperators.unionAll
           PgSetOperators.intersect PgSetOperators.intersectAll
           PgSetOperators.except PgSetOperators.exceptAll];
      unfold typed;
      match goal with
      | |- context [bind (bind ?x _) _] => destruct x; reflexivity
      end. }
  split; [reflexivity|]. split; [apply setOperator_function_right_eq|].
  split; [apply setOperator_function_rest | apply setOperator_function_rest_indep].
Qed.

(** C6 as stated fails for the free functions: the fluent method applies
    the function operand and builds the node, the free function hands
    the function itself to the constructor. *)
Lemma free_function_operand_counterexample :
  PgSetOperatorBuilder.union Sample.selectA Sample.resolveB = Return Sample.unionAB /\
  union Sample.selectA Sample.resolveB [] = Throw TypeError /\
  union Sample.selectA (VQuery Sample.selectB) [Sample.resolveB] = Throw TypeError.
Proof. repeat split. Qed.

(** C7, as the code has it: a chain call with an undefined rest operand
    always fails, so no tree is returned.  With the first undefined entry
    after [pre], the error is the missing-operand error exactly when
    [pre] is empty or the operands combined before that entry is examined
    (the right operand and all of [pre] but its last element) pass the
    shape validation; otherwise the call ends with the exception of the
    earliest of those combinations that fails: the shape error for a
    query of another shape, a [TypeError] for an operand that is not a
    query. *)
Theorem undefined_rest_operand_fails type isAll (pre post : list Value) :
  Forall (fun v => falsy v = false) pre ->
  forall (l : QueryBuilder) (r : Value),
  (exists e, setOperator type isAll l r (pre ++ VUndefined :: post) = Throw e) /\
  (setOperator type isAll l r (pre ++ VUndefined :: post) = Throw MissingOperand
   <-> match pre with
       | [] => True
       | _ :: _ => chainable l r (removelast pre)
       end) /\
  setOperator type isAll l r (pre ++ VUndefined :: post) =
    Throw (match pre with
           | [] => MissingOperand
           | _ :: _ =>
               match earliestFailure l r (removelast pre) with
               | Some e => e
               | None => MissingOperand
               end
           end).
Proof.
  intros Hpre l r. split; [|split].
  { apply setOperator_undefined, in_elt. }
  { revert l r; induction Hpre as [|p pre Hp Hpre IH]; intros l r.
    - cbn. split; [constructor | reflexivity].
    - cbn [app setOperator]. rewrite Hp.
      pose proof (new_PgSetOperator_outcome type isAll l r) as H.
      pose proof (new_PgSetOperator_not_missing type isAll l r) as Hm.
      destruct (new_PgSetOperator type isAll l r) as [node|e]; cbn [bind].
      + destruct H as (q & -> & Hq & ->). rewrite IH.
        destruct pre as [|p' pre].
        * cbn. split; [|constructor].
          intros _. split; [apply hasShape_query, Hq | constructor].
        * change (removelast (p :: p' :: pre)) with (p :: removelast (p' :: pre)).
          rewrite chainable_combine. unfold chainable. split.
          -- intros HF. split; [apply hasShape_query, Hq | exact HF].
          -- intros [_ HF]. exact HF.
      + split; [intros E; contradiction | intros [Hr _]; contradiction]. }
  rewrite (setOperator_before_undefined type isAll pre post Hpre).
  destruct pre as [|p pre]; [reflexivity|].
  rewrite <- (setOperator_earliestFailure type isAll (removelast (p :: pre))
                (Forall_defined_removelast _ Hpre) l r).
  destruct (setOperator type isAll l r (removelast (p :: pre))); reflexivity.
Qed.

Lemma undefined_rest_operand_fails_witness :
  union Sample.selectA (VQuery Sample.selectB)
    ([VQuery Sample.selectB] ++ VUndefined :: []) = Throw MissingOperand.
Proof.
  assert (H : Forall (fun v => falsy v = false) [VQuery Sample.selectB])
    by (repeat constructor).
  exact (proj2 (proj2 (undefined_rest_operand_fails Union false
           [VQuery Sample.selectB] [] H Sample.selectA (VQuery Sample.selectB)))).
Defined.

(** C7 as stated fails: the undefined entry is the second rest operand,
    and the combination of the first two operands, whose shapes differ,
    is attempted first and throws the shape error. *)
Lemma undefined_rest_operand_counterexample :
  In VUndefined [VQuery Sample.selectB; VUndefined] /\
  union Sample.selectA (VQuery Sample.selectC) [VQuery Sample.selectB; VUndefined]
    = Throw ShapeMismatch /\
  ShapeMismatch <> MissingOperand.
Proof.
  split; [right; left; reflexivity|]. split; [reflexivity | discriminate].
Qed.

(** C8: a node built by a free function or a fluent method carries the
    session, dialect, join-nullability map and fields of its left
    operand, and its selected fields are those fields; along a chain
    they are those of the leftmost operand [q0].  The chain is built
    exactly when the right operand has the names [q0] selects and every
    later operand has the names of the fields carried over from [q0]:
    no operand is compared with its neighbour. *)
Theorem snapshot_from_left_operand type isAll (q0 : QueryBuilder)
    (rightSelect : Value) (restSelects : list Value) :
  match setOperator type isAll q0 rightSelect restSelects with
  | Return node =>
      getSetOperatorConfig node = getSetOperatorConfig q0 /\
      getSelectedFields node = resultFields q0 /\
      chainable q0 rightSelect restSelects
  | Throw _ => ~ chainable q0 rightSelect restSelects
  end /\
  match PgSetOperatorBuilder.setOperator type isAll q0 rightSelect with
  | Return node =>
      getSetOperatorConfig node = getSetOperatorConfig q0 /\
      getSelectedFields node = resultFields q0
  | Throw _ => True
  end.
Proof.
  split.
  - pose proof (setOperator_outcome type isAll restSelects q0 rightSelect) as H.
    destruct (setOperator type isAll q0 rightSelect restSelects) as [node|e];
      [|exact H].
    destruct H as (Hc & qs & E & ->).
    destruct qs as [|q qs]; [discriminate|].
    rewrite getSetOperatorConfig_chain, getSelectedFields_chain. auto.
  - unfold PgSetOperatorBuilder.setOperator.
    assert (Hnew : forall v,
      match new_PgSetOperator type isAll q0 v with
      | Return node =>
          getSetOperatorConfig node = getSetOperatorConfig q0 /\
          getSelectedFields node = resultFields q0
      | Throw _ => True
      end).
    { intros v. pose proof (new_PgSetOperator_outcome type isAll q0 v) as H.
      destruct (new_PgSetOperator type isAll q0 v); [|exact I].
      destruct H as (q & _ & _ & ->).
      rewrite getSetOperatorConfig_combine, getSelectedFields_combine. auto. }
    destruct rightSelect as [q|f|]; cbn [bind]; try apply Hnew.
    destruct (f getPgSetOperators) as [q|e]; cbn [bind]; [apply Hnew | exact I].
Qed.

(** C9: a second [getSQL()] or [toSQL()] on the same node returns what
    the first returned and leaves the store as the first left it. *)
Theorem render_twice_identical (q : QueryBuilder) (st : Store) :
  getSQL q (snd (getSQL q st)) = getSQL q st /\
  toSQL q (snd (toSQL q st)) = toSQL q st /\
  flatten (snd (getSQL q (snd (getSQL q st)))) (fst (getSQL q (snd (getSQL q st)))) =
  flatten (snd (getSQL q st)) (fst (getSQL q st)).
Proof.
  assert (H := getSQL_again q st).
  split; [exact H|]. split; [|rewrite H; reflexivity].
  unfold toSQL. destruct (getSQL q st) as [fragment1 st1] eqn:E.
  simpl in H |- *. rewrite H. reflexivity.
Qed.

(** C10: [getSQL()] writes to the caller's objects.  An SQL expression
    of the ORDER BY list, stored at address [a], has after the call every
    top-level column chunk replaced by the raw fragment of the column's
    bare name and every other chunk as it was; the store differs from
    the one before when there was such a column, and later calls leave
    the rewritten object as it is. *)
Theorem getSQL_rewrites_orderBy_in_place operator isAll (l r : QueryBuilder)
    session dialect jnm config (items : list OrderByItem)
    (a : nat) (cs : list SQLChunk) (st : Store) :
  Config.orderBy config = Some items ->
  In (OrderBySQL a) items ->
  st !! a = Some cs ->
  snd (getSQL (PgSetOperator operator isAll l r session dialect jnm config) st) !! a
    = Some (map bareName cs) /\
  (forall i c, cs !! i = Some (ColumnChunk c) ->
     map bareName cs !! i = Some (SQLObject [StringChunk (name c)]) /\
     snd (getSQL (PgSetOperator operator isAll l r session dialect jnm config) st) <> st) /\
  (forall i chunk, cs !! i = Some chunk -> isColumn chunk = false ->
     map bareName cs !! i = Some chunk) /\
  getSQL (PgSetOperator operator isAll l r session dialect jnm config)
    (snd (getSQL (PgSetOperator operator isAll l r session dialect jnm config) st))
  = getSQL (PgSetOperator operator isAll l r session dialect jnm config) st.
Proof.
  intros Hob Hin Hcell.
  assert (Hcell' :
    snd (getSQL (PgSetOperator operator isAll l r session dialect jnm config) st) !! a
    = Some (map bareName cs)).
  { rewrite getSQL_eq. cbn [snd]. rewrite rewriteAll_lookup, Hcell.
    rewrite bool_decide_eq_true_2; [reflexivity|].
    cbn [written]. rewrite Hob, !elem_of_app. right; right.
    apply itemAddresses_In, Hin. }
  split; [exact Hcell'|]. split; [|split].
  - intros i c Hi.
    assert (Hm : map bareName cs !! i = Some (SQLObject [StringChunk (name c)])).
    { change (map bareName cs) with (bareName <$> cs).
      rewrite list_lookup_fmap, Hi. reflexivity. }
    split; [exact Hm|]. intros Heq. rewrite Heq, Hcell in Hcell'.
    injection Hcell' as Hcs. rewrite <- Hcs, Hi in Hm. discriminate.
  - intros i chunk Hi Hc.
    change (map bareName cs) with (bareName <$> cs).
    rewrite list_lookup_fmap, Hi. destruct chunk; try reflexivity; discriminate.
  - apply getSQL_again.
Qed.

Lemma getSQL_rewrites_orderBy_in_place_witness :
  snd (getSQL (orderBy [OrderBySQL 0] Sample.unionAB) Sample.store) !! 0
  = Some [StringChunk "lower("; SQLObject [StringChunk "name"]; StringChunk ")"].
Proof.
  exact (proj1 (getSQL_rewrites_orderBy_in_place Union false Sample.selectA
    Sample.selectB (Some 1) Sample.dialect [("users", true)]
    (Config.mk [("id", ColumnChunk Sample.users_id);
                ("name", ColumnChunk Sample.users_name)]
       None (Some [OrderBySQL 0]) None)
    [OrderBySQL 0] 0
    [StringChunk "lower("; ColumnChunk Sample.users_name; StringChunk ")"]
    Sample.store eq_refl (or_introl eq_refl) eq_refl)).
Defined.

(** ** Further properties *)

(** *** Chains *)

Lemma fluentChain_throw type isAll (operands : list QueryBuilder) (e : Exception) :
  fold_left (fun acc q =>
               let* node := acc in
               PgSetOperatorBuilder.setOperator type isAll node (VQuery q))
    operands (Throw e) = Throw e.
Proof. induction operands as [|q qs IH]; simpl; auto. Qed.

(** X4: a free function on literal queries is the fluent method applied
    operand after operand, with the same node or the same exception. *)
Theorem free_function_is_fluent_chain type isAll (q0 q1 : QueryBuilder)
    (rest : list QueryBuilder) :
  setOperator type isAll q0 (VQuery q1) (map VQuery rest) =
  fluentChain type isAll q0 (q1 :: rest).
Proof.
  unfold fluentChain. revert q0 q1; induction rest as [|q rest IH]; intros q0 q1.
  - reflexivity.
  - cbn [map setOperator falsy fold_left].
    change (let* node := Return q0 in
            PgSetOperatorBuilder.setOperator type isAll node (VQuery q1))
      with (new_PgSetOperator type isAll q0 (VQuery q1)).
    destruct (new_PgSetOperator type isAll q0 (VQuery q1)) as [node|e]; cbn [bind].
    + rewrite IH. reflexivity.
    + symmetry. apply (fluentChain_throw type isAll (q :: rest) e).
Qed.

(** X5: a chain call splits at any rest operand that is not undefined:
    [op(l, r, ...rest1, s, ...rest2)] is [op(op(l, r, ...rest1), s, ...rest2)]. *)
Theorem chain_splits_at_defined_operand type isAll (rest1 rest2 : list Value)
    (s : Value) :
  falsy s = false ->
  forall (l : QueryBuilder) (r : Value),
  setOperator type isAll l r (rest1 ++ s :: rest2) =
  (let* node := setOperator type isAll l r rest1 in
   setOperator type isAll node s rest2).
Proof.
  intros Hs. induction rest1 as [|p rest1 IH]; intros l r.
  - cbn [app setOperator]. rewrite Hs. reflexivity.
  - cbn [app setOperator]. destruct (falsy p); [reflexivity|].
    destruct (new_PgSetOperator type isAll l r) as [node|e]; cbn [bind];
      [apply IH | reflexivity].
Qed.

Lemma chain_splits_at_defined_operand_witness :
  union Sample.selectA (VQuery Sample.selectB)
    ([VQuery Sample.selectA] ++ VQuery Sample.selectB :: []) =
  (let* node := union Sample.selectA (VQuery Sample.selectB) [VQuery Sample.selectA] in
   union node (VQuery Sample.selectB) []).
Proof.
  exact (chain_splits_at_defined_operand Union false [VQuery Sample.selectA] []
           (VQuery Sample.selectB) eq_refl Sample.selectA (VQuery Sample.selectB)).
Defined.

(** X6: the guard against undefined looks at the rest operands only.  An
    undefined right operand reaches the constructor: with no rest operand
    the call ends in a [TypeError], as does the fluent method; with rest
    operands it ends in the missing-operand error only when the first of
    them is undefined too. *)
Theorem undefined_right_operand type isAll (l : QueryBuilder) (rest : list Value) :
  setOperator type isAll l VUndefined rest =
    match rest with
    | [] => Throw TypeError
    | select :: _ => if falsy select then Throw MissingOperand else Throw TypeError
    end /\
  PgSetOperatorBuilder.setOperator type isAll l VUndefined = Throw TypeError.
Proof.
  split; [|reflexivity].
  destruct rest as [|select rest]; [reflexivity|].
  cbn [setOperator]. destruct (falsy select); reflexivity.
Qed.

Lemma new_PgSetOperator_thrown type isAll type' isAll' (l l' : QueryBuilder) (r : Value) :
  getSelectedFields l = getSelectedFields l' ->
  thrown (new_PgSetOperator type isAll l r) =
  thrown (new_PgSetOperator type' isAll' l' r).
Proof.
  intros H. destruct r as [q|f|]; try reflexivity.
  unfold new_PgSetOperator. rewrite H.
  destruct (haveSameKeys _ _); reflexivity.
Qed.

Lemma setOperator_thrown type isAll type' isAll' (rest : list Value) :
  forall (l l' : QueryBuilder) (r : Value),
  getSelectedFields l = getSelectedFields l' ->
  resultFields l = resultFields l' ->
  thrown (setOperator type isAll l r rest) =
  thrown (setOperator type' isAll' l' r rest).
Proof.
  induction rest as [|select rest IH]; intros l l' r Hs Hr.
  - apply new_PgSetOperator_thrown, Hs.
  - cbn [setOperator]. destruct (falsy select); [reflexivity|].
    pose proof (new_PgSetOperator_thrown type isAll type' isAll' l l' r Hs) as Hn.
    pose proof (new_PgSetOperator_outcome type isAll l r) as Ho.
    pose proof (new_PgSetOperator_outcome type' isAll' l' r) as Ho'.
    destruct (new_PgSetOperator type isAll l r) as [node|e],
             (new_PgSetOperator type' isAll' l' r) as [node'|e'];
      cbn [bind]; try discriminate Hn; [|exact Hn].
    destruct Ho as (q & -> & _ & ->). destruct Ho' as (q' & [= <-] & _ & ->).
    apply IH.
    + rewrite !getSelectedFields_combine. exact Hr.
    + rewrite !resultFields_combine. exact Hr.
Qed.

(** X12: whether a chain is built, and with which exception it fails,
    does not depend on the operator nor on the ALL flag. *)
Theorem validation_ignores_operator type isAll type' isAll'
    (l : QueryBuilder) (r : Value) (rest : list Value) :
  thrown (setOperator type isAll l r rest) =
  thrown (setOperator type' isAll' l r rest).
Proof. apply setOperator_thrown; reflexivity. Qed.

(** *** Modifiers *)

(** X7: each modifier stores its argument in its own setting of the
    node and leaves the other settings, the operands and the captured
    state alone.  The last [limit], [offset] or [orderBy] wins (an ORDER
    BY list is replaced, not extended), modifiers of different kinds can
    be called in any order, and the rendered node shows the last values
    only. *)
Theorem modifiers_last_write_wins operator isAll (l r : QueryBuilder)
    session dialect jnm fields lim items off (a b a' b' : LimitValue)
    (columns columns' : list OrderByItem) (q : QueryBuilder) (st st' : Store) :
  limit a (PgSetOperator operator isAll l r session dialect jnm
             (Config.mk fields lim items off)) =
    PgSetOperator operator isAll l r session dialect jnm
      (Config.mk fields (Some a) items off) /\
  offset a (PgSetOperator operator isAll l r session dialect jnm
              (Config.mk fields lim items off)) =
    PgSetOperator operator isAll l r session dialect jnm
      (Config.mk fields lim items (Some a)) /\
  orderBy columns (PgSetOperator operator isAll l r session dialect jnm
                     (Config.mk fields lim items off)) =
    PgSetOperator operator isAll l r session dialect jnm
      (Config.mk fields lim (Some columns) off) /\
  orderBy columns (orderBy columns' (offset a' (offset b' (limit a (limit b
    (PgSetOperator operator isAll l r session dialect jnm
       (Config.mk fields lim items off))))))) =
    PgSetOperator operator isAll l r session dialect jnm
      (Config.mk fields (Some a) (Some columns) (Some a')) /\
  flatten st'
    (fst (getSQL
       (orderBy columns (orderBy columns' (offset a' (offset b' (limit a (limit b
          (PgSetOperator operator isAll l r session dialect jnm
             (Config.mk fields lim items off)))))))) st)) =
    LText "(" :: flatten st' (fst (getSQL l st)) ++
    LText ") " :: LText (operatorKeyword operator isAll) ::
    LText "(" :: flatten st' (fst (getSQL r st)) ++
    LText ")" ::
    orderByClause st' (Config.mk fields None (Some columns) None) ++
    (if truthy (Some a) then [LText " limit "; LParam a] else []) ++
    (if truthy (Some a') then [LText " offset "; LParam a'] else []) /\
  limit a (limit b q) = limit a q /\
  offset a (offset b q) = offset a q /\
  orderBy columns (orderBy columns' q) = orderBy columns q /\
  limit a (offset b q) = offset b (limit a q) /\
  limit a (orderBy columns q) = orderBy columns (limit a q) /\
  offset a (orderBy columns q) = orderBy columns (offset a q).
Proof.
  do 4 (split; [reflexivity|]). split.
  - rewrite !getSQL_eq. cbn [fst]. cbn [orderBy offset limit withConfig fragment
      Config.fields Config.limit Config.orderBy Config.offset].
    rewrite flatten_nodeFragment. reflexivity.
  - destruct q as [base|? ? ? ? ? ? ? []]; repeat split.
Qed.

(** X8: the modifiers of the left operand play no part in combination:
    with or without them the chain is built or fails with the same
    exception, and the node built has the same session, dialect,
    join-nullability map and fields. *)
Theorem modifiers_do_not_affect_combination type isAll (l : QueryBuilder)
    (r : Value) (rest : list Value) (n m : LimitValue) (columns : list OrderByItem) :
  thrown (setOperator type isAll (orderBy columns (offset m (limit n l))) r rest) =
    thrown (setOperator type isAll l r rest) /\
  match setOperator type isAll (orderBy columns (offset m (limit n l))) r rest,
        setOperator type isAll l r rest with
  | Return node, Return node' =>
      getSetOperatorConfig node = getSetOperatorConfig node' /\
      getSelectedFields node = getSelectedFields node'
  | _, _ => True
  end.
Proof.
  assert (Hc : getSetOperatorConfig (orderBy columns (offset m (limit n l))) =
               getSetOperatorConfig l /\
               getSelectedFields (orderBy columns (offset m (limit n l))) =
               getSelectedFields l).
  { destruct l as [base|? ? ? ? ? ? ? []]; split; reflexivity. }
  destruct Hc as [Hc Hs].
  split; [apply setOperator_thrown; [exact Hs | exact (f_equal soc_fields Hc)]|].
  pose proof (setOperator_outcome type isAll rest
                (orderBy columns (offset m (limit n l))) r) as Ho.
  pose proof (setOperator_outcome type isAll rest l r) as Ho'.
  destruct (setOperator type isAll (orderBy columns (offset m (limit n l))) r rest)
    as [node|e], (setOperator type isAll l r rest) as [node'|e']; try exact I.
  destruct Ho as (_ & [|q qs] & E & ->); [discriminate|].
  destruct Ho' as (_ & [|q' qs'] & E' & ->); [discriminate|].
  rewrite !getSetOperatorConfig_chain, !getSelectedFields_chain.
  split; [exact Hc | exact (f_equal soc_fields Hc)].
Qed.

(** X9: [orderBy()] with no column leaves an empty list, which renders
    and writes exactly as a node that was never ordered: an earlier
    ordering is gone. *)
Theorem orderBy_nothing_clears_ordering operator isAll (l r : QueryBuilder)
    session dialect jnm fields lim items off (st : Store) :
  getSQL (orderBy [] (PgSetOperator operator isAll l r session dialect jnm
            (Config.mk fields lim items off))) st =
  getSQL (PgSetOperator operator isAll l r session dialect jnm
            (Config.mk fields lim None off)) st.
Proof. reflexivity. Qed.

(** *** What rendering writes *)

Lemma itemAddresses_elem (items : list OrderByItem) (a : nat) :
  a ∈ itemAddresses items <-> In (OrderBySQL a) items.
Proof.
  split; [|apply itemAddresses_In].
  induction items as [|[c|b|inner al] items IH]; simpl.
  - intros H. apply elem_of_nil in H. contradiction.
  - auto.
  - rewrite elem_of_cons. intros [->|H]; auto.
  - auto.
Qed.

(** X10: what [getSQL()] does to the caller's objects, all of it.  The
    objects it writes are the SQL entries of the ORDER BY lists of the
    node and of the nodes below it; each of them ends up with its
    top-level columns replaced by bare names; every other object is left
    as it was, and neither the number of objects nor the number of
    chunks of any object changes. *)
Theorem getSQL_store_effect (q : QueryBuilder) (st : Store) (a : nat) :
  snd (getSQL q st) !! a =
    (if bool_decide (a ∈ written q) then map bareName <$> st !! a else st !! a) /\
  length (snd (getSQL q st)) = length st /\
  (length <$> snd (getSQL q st) !! a) = (length <$> st !! a) /\
  (forall operator isAll l r session dialect jnm config,
     a ∈ written (PgSetOperator operator isAll l r session dialect jnm config) <->
     a ∈ written l \/ a ∈ written r \/
     exists items, Config.orderBy config = Some items /\ In (OrderBySQL a) items).
Proof.
  rewrite getSQL_eq. cbn [snd]. split; [apply rewriteAll_lookup|].
  split; [apply rewriteAll_length|]. split.
  - rewrite rewriteAll_lookup. case_bool_decide; [|reflexivity].
    destruct (st !! a); simpl; [|reflexivity]. rewrite length_map. reflexivity.
  - intros. cbn [written]. rewrite !elem_of_app.
    destruct (Config.orderBy config) as [items|].
    + rewrite itemAddresses_elem. split.
      * intros [H|[H|H]]; eauto.
      * intros [H|[H|(items' & [= <-] & H)]]; auto.
    + split.
      * intros [H|[H|H]]; auto. apply elem_of_nil in H. contradiction.
      * intros [H|[H|(items' & [=] & _)]]; auto.
Qed.

Lemma flattenFuel_bareName_flat (st : Store) (fuel : nat) (chunk : SQLChunk) :
  isFlat chunk = true ->
  flattenFuel st fuel (bareName chunk) = bareLeaves chunk.
Proof.
  destruct chunk as [s|c|v|inner al|cs|b|]; try discriminate; intros _; simpl.
  - apply flattenFuel_string.
  - unfold raw. rewrite flattenFuel_object. cbn [flat_map].
    rewrite flattenFuel_string, app_nil_r. reflexivity.
  - destruct fuel; reflexivity.
  - apply flattenFuel_aliased.
  - apply flattenFuel_undefined.
Qed.

Lemma bareLeaves_no_column (chunk : SQLChunk) (c : PgColumn) :
  ~ In (LColumn c) (bareLeaves chunk).
Proof.
  destruct chunk as [s|col|v|inner al|cs|b|]; simpl; try tauto.
  - destruct (String.eqb s ""); simpl; [tauto | intros [[=]|[]]].
  - destruct (String.eqb (name col) ""); simpl; [tauto | intros [[=]|[]]].
  - intros [[=]|[]].
  - intros [[=]|[]].
Qed.

(** X11: an SQL entry of the ORDER BY list whose chunks are all flat
    (text, columns, parameters; no SQL object inside) is rendered, after
    [getSQL()], with every column as its bare name: no table-qualified
    reference is left in it.  Before the call the same object rendered
    with its columns qualified, so whoever else holds the object sees
    its text change. *)
Theorem flat_entry_renders_unqualified operator isAll (l r : QueryBuilder)
    session dialect jnm config (items : list OrderByItem)
    (a : nat) (cs : list SQLChunk) (st : Store) :
  Config.orderBy config = Some items ->
  In (OrderBySQL a) items ->
  st !! a = Some cs ->
  forallb isFlat cs = true ->
  flatten (snd (getSQL (PgSetOperator operator isAll l r session dialect jnm config) st))
    (SQLRef a) = flat_map bareLeaves cs /\
  (forall c, ~ In (LColumn c) (flat_map bareLeaves cs)) /\
  (forall c, In (ColumnChunk c) cs -> In (LColumn c) (flatten st (SQLRef a))).
Proof.
  intros Hob Hin Hcell Hflat.
  assert (Hlt : a < length st) by (apply lookup_lt_Some in Hcell; exact Hcell).
  split; [|split].
  - rewrite getSQL_eq. cbn [snd]. unfold flatten.
    rewrite rewriteAll_length.
    destruct (length st) as [|fuel] eqn:El; [lia|].
    simpl. rewrite rewriteAll_lookup, Hcell.
    rewrite bool_decide_eq_true_2.
    + simpl. rewrite flat_map_concat_map, map_map, <- flat_map_concat_map.
      apply flat_map_Forall_ext. rewrite List.Forall_forall.
      rewrite forallb_forall in Hflat.
      intros x Hx. apply flattenFuel_bareName_flat, Hflat, Hx.
    + cbn [written]. rewrite Hob, !elem_of_app. right; right.
      apply itemAddresses_In, Hin.
  - intros c H. apply in_flat_map in H. destruct H as (chunk & _ & H).
    exact (bareLeaves_no_column chunk c H).
  - intros c Hc. unfold flatten.
    destruct (length st) as [|fuel] eqn:El; [lia|].
    simpl. rewrite Hcell. apply in_flat_map.
    exists (ColumnChunk c). split; [exact Hc|].
    destruct fuel; left; reflexivity.
Qed.

Lemma flat_entry_renders_unqualified_witness :
  flatten (snd (getSQL (orderBy [OrderBySQL 0] Sample.unionAB) Examples.store))
    (SQLRef 0) = [LText "name"; LText " desc"].
Proof.
  exact (proj1 (flat_entry_renders_unqualified Union false Sample.selectA
    Sample.selectB (Some 1) Sample.dialect [("users", true)]
    (Config.mk [("id", ColumnChunk Sample.users_id);
                ("name", ColumnChunk Sample.users_name)]
       None (Some [OrderBySQL 0]) None)
    [OrderBySQL 0] 0
    [StringChunk ""; ColumnChunk Sample.users_name; StringChunk " desc"]
    Examples.store eq_refl (or_introl eq_refl) eq_refl eq_refl)).
Defined.

(** X13: the index loop over [queryChunks] treats every position on its
    own: the array keeps its length, position [i] holds the bare name of
    the column that was there or else the chunk that was there, and a
    second run changes nothing. *)
Theorem rewrite_loop_pointwise (queryChunks : list SQLChunk) (i : nat) :
  length (rewriteQueryChunks queryChunks) = length queryChunks /\
  rewriteQueryChunks queryChunks !! i = bareName <$> queryChunks !! i /\
  rewriteQueryChunks (rewriteQueryChunks queryChunks) = rewriteQueryChunks queryChunks.
Proof.
  rewrite !rewriteQueryChunks_map. split; [apply length_map|]. split.
  - change (map bareName queryChunks) with (bareName <$> queryChunks).
    apply list_lookup_fmap.
  - apply map_bareName_idem.
Qed.

(** *** Prepared statements *)

Section SessionProperties.

Variable orderSelectedFields : Fields -> list (list string * SQLChunk).
Variable Rows : Type.
Variable executePrepared : PreparedQuery -> list (string * Z) -> Result Rows.

Lemma _prepare_with_session (this : QueryBuilder) (name : option string)
    (session : PgSession) (st : Store) :
  soc_session (getSetOperatorConfig this) = Some session ->
  _prepare orderSelectedFields this name st =
  (Return (mkPreparedQuery session
             (sqlToQuery (dialectOf this) (snd (getSQL this st)) (fst (getSQL this st)))
             (orderSelectedFields (resultFields this)) name
             (Some (soc_joinsNotNullableMap (getSetOperatorConfig this)))),
   snd (getSQL this st)).
Proof.
  intros H. unfold _prepare, startActiveSpan. rewrite H.
  destruct (getSQL this st) as [fragment st']. reflexivity.
Qed.

Lemma toSQL_eq (this : QueryBuilder) (st : Store) :
  toSQL this st =
  (mkQuery
     (qt_sql (sqlToQuery (dialectOf this) (snd (getSQL this st)) (fst (getSQL this st))))
     (qt_params (sqlToQuery (dialectOf this) (snd (getSQL this st)) (fst (getSQL this st)))),
   snd (getSQL this st)).
Proof. unfold toSQL. destruct (getSQL this st). reflexivity. Qed.

End SessionProperties.

(** X1: a node that captured no session cannot be prepared or executed:
    both end in the session error, and they do so before rendering, so
    the caller's ORDER BY objects are not written. *)
Theorem prepare_requires_session
    (orderSelectedFields : Fields -> list (list string * SQLChunk))
    (Rows : Type) (executePrepared : PreparedQuery -> list (string * Z) -> Result Rows)
    (this : QueryBuilder) (name : option string) (label : string)
    (placeholderValues : list (string * Z)) (st : Store) :
  soc_session (getSetOperatorConfig this) = None ->
  _prepare orderSelectedFields this name st = (Throw SessionMissing, st) /\
  prepare orderSelectedFields this label st = (Throw SessionMissing, st) /\
  execute orderSelectedFields Rows executePrepared this placeholderValues st =
    (Throw SessionMissing, st).
Proof.
  intros H. unfold execute, prepare, _prepare, startActiveSpan.
  rewrite H. repeat split.
Qed.

Lemma prepare_requires_session_witness :
  execute Examples.orderSelectedFields string Examples.executePrepared
    (orderBy [OrderBySQL 0] Examples.unionBA) [] Examples.store =
  (Throw SessionMissing, Examples.store).
Proof.
  apply (prepare_requires_session Examples.orderSelectedFields string
           Examples.executePrepared (orderBy [OrderBySQL 0] Examples.unionBA)
           None "q" [] Examples.store eq_refl).
Defined.

(** X2: on a node with a session, preparing renders exactly as [toSQL()]
    does: same text, same parameters, same writes to the store.  The
    statement is prepared on the node's session under the given name,
    with the ordered fields and the join-nullability map of the node;
    preparing again gives the same statement, and [execute] runs the
    statement prepared without a name. *)
Theorem prepare_agrees_with_toSQL
    (orderSelectedFields : Fields -> list (list string * SQLChunk))
    (Rows : Type) (executePrepared : PreparedQuery -> list (string * Z) -> Result Rows)
    (this : QueryBuilder) (name : option string) (session : PgSession)
    (placeholderValues : list (string * Z)) (st : Store) :
  soc_session (getSetOperatorConfig this) = Some session ->
  exists prepared,
    _prepare orderSelectedFields this name st =
      (Return prepared, snd (toSQL this st)) /\
    qt_sql (pq_query prepared) = sql_text (fst (toSQL this st)) /\
    qt_params (pq_query prepared) = params (fst (toSQL this st)) /\
    pq_session prepared = session /\
    pq_name prepared = name /\
    pq_fieldsList prepared = orderSelectedFields (resultFields this) /\
    pq_joinsNotNullableMap prepared =
      Some (soc_joinsNotNullableMap (getSetOperatorConfig this)) /\
    _prepare orderSelectedFields this name (snd (toSQL this st)) =
      (Return prepared, snd (toSQL this st)) /\
    exists anonymous,
      fst (_prepare orderSelectedFields this None st) = Return anonymous /\
      execute orderSelectedFields Rows executePrepared this placeholderValues st =
        (executePrepared anonymous placeholderValues, snd (toSQL this st)).
Proof.
  intros H. eexists. rewrite toSQL_eq. cbn [fst snd sql_text params].
  split; [apply _prepare_with_session, H|]. cbn [pq_query pq_session pq_name
    pq_fieldsList pq_joinsNotNullableMap]. repeat split.
  - rewrite (_prepare_with_session orderSelectedFields this name session _ H).
    rewrite getSQL_again. reflexivity.
  - eexists. split.
    + rewrite (_prepare_with_session orderSelectedFields this None session st H).
      reflexivity.
    + unfold execute, startActiveSpan.
      rewrite (_prepare_with_session orderSelectedFields this None session st H).
      reflexivity.
Qed.

Lemma prepare_agrees_with_toSQL_witness :
  exists prepared,
    _prepare Examples.orderSelectedFields
      (limit (LimitNumber 10) Sample.unionAB) (Some "q") [] =
      (Return prepared, []) /\
    qt_sql (pq_query prepared) = "(A) union (B) limit $1".
Proof.
  destruct (prepare_agrees_with_toSQL Examples.orderSelectedFields string
              Examples.executePrepared (limit (LimitNumber 10) Sample.unionAB)
              (Some "q") 1 [] [] eq_refl)
    as (prepared & H1 & H2 & _).
  exists prepared. split; [exact H1 | exact H2].
Defined.

(** X3: a chain is prepared on the session of its leftmost operand and
    on no other: it fails with the session error exactly when that
    operand has none, whatever sessions the other operands have, and
    otherwise the statement carries the leftmost operand's session and
    join-nullability map. *)
Theorem chain_prepares_on_leftmost_session
    (orderSelectedFields : Fields -> list (list string * SQLChunk))
    type isAll (q0 : QueryBuilder) (r : Value) (rest : list Value)
    (node : QueryBuilder) (name : option string) (st : Store) :
  setOperator type isAll q0 r rest = Return node ->
  (fst (_prepare orderSelectedFields node name st) = Throw SessionMissing <->
   soc_session (getSetOperatorConfig q0) = None) /\
  match soc_session (getSetOperatorConfig q0) with
  | Some session =>
      exists prepared,
        fst (_prepare orderSelectedFields node name st) = Return prepared /\
        pq_session prepared = session /\
        pq_joinsNotNullableMap prepared =
          Some (soc_joinsNotNullableMap (getSetOperatorConfig q0))
  | None => True
  end.
Proof.
  intros Hnode.
  pose proof (setOperator_outcome type isAll rest q0 r) as Ho.
  rewrite Hnode in Ho. destruct Ho as (_ & qs & _ & ->).
  assert (Hc := getSetOperatorConfig_chain type isAll qs q0).
  destruct (soc_session (getSetOperatorConfig q0)) as [session|] eqn:Es.
  - assert (Hs : soc_session (getSetOperatorConfig
                    (fold_left (combine type isAll) qs q0)) = Some session)
      by (rewrite Hc; exact Es).
    rewrite (_prepare_with_session orderSelectedFields _ name session st Hs).
    cbn [fst]. split; [split; discriminate|].
    eexists. split; [reflexivity|]. cbn. rewrite Hc. auto.
  - unfold _prepare. rewrite Hc, Es. cbn [fst]. split; [tauto | exact I].
Qed.

Lemma chain_prepares_on_leftmost_session_witness :
  fst (_prepare Examples.orderSelectedFields Examples.unionBA None [])
    = Throw SessionMissing <->
  soc_session (getSetOperatorConfig Sample.selectB) = None.
Proof.
  apply (chain_prepares_on_leftmost_session Examples.orderSelectedFields
           Union false Sample.selectB (VQuery Sample.selectA) []
           Examples.unionBA None [] eq_refl).
Defined.

(** *** Parameters *)

Lemma parameters_app (xs ys : list Leaf) :
  parameters (xs ++ ys) = parameters xs ++ parameters ys.
Proof. apply flat_map_app. Qed.

(** X14: the parameters of a rendered node come in the order of the
    text: those of the left operand, those of the right operand, those
    of the ORDER BY entries, then the limit and then the offset, each of
    the two only when it is rendered. *)
Theorem parameters_follow_the_text operator isAll (l r : QueryBuilder)
    session dialect jnm config (st st' : Store) :
  parameters (flatten st'
    (fst (getSQL (PgSetOperator operator isAll l r session dialect jnm config) st))) =
  parameters (flatten st' (fst (getSQL l st))) ++
  parameters (flatten st' (fst (getSQL r st))) ++
  parameters (orderByClause st' config) ++
  modifierParameter (Config.limit config) ++
  modifierParameter (Config.offset config).
Proof.
  rewrite !getSQL_eq. cbn [fst fragment]. rewrite flatten_nodeFragment.
  change (LText "(" :: ?x) with ([LText "("] ++ x).
  rewrite !parameters_app.
  change (LText ") " :: LText (operatorKeyword operator isAll) :: LText "(" :: ?x)
    with ([LText ") "; LText (operatorKeyword operator isAll); LText "("] ++ x).
  rewrite !parameters_app.
  change (LText ")" :: ?x) with ([LText ")"] ++ x).
  rewrite !parameters_app. cbn [parameters flat_map app].
  f_equal. f_equal. f_equal. unfold limitClause, offsetClause, modifierParameter.
  destruct (Config.limit config) as [v|], (Config.offset config) as [w|];
    try destruct (truthy (Some v)); try destruct (truthy (Some w)); reflexivity.
Qed.

(** *** Shapes *)

(** X15: whether two queries can be combined does not depend on which of
    them is on the left: either order builds a node or either order
    throws the shape error, for the free functions and for the fluent
    methods. *)
Theorem shape_validation_symmetric type isAll (l r : QueryBuilder) :
  thrown (setOperator type isAll l (VQuery r) []) =
    thrown (setOperator type isAll r (VQuery l) []) /\
  thrown (PgSetOperatorBuilder.setOperator type isAll l (VQuery r)) =
    thrown (PgSetOperatorBuilder.setOperator type isAll r (VQuery l)).
Proof.
  assert (H : thrown (new_PgSetOperator type isAll l (VQuery r)) =
              thrown (new_PgSetOperator type isAll r (VQuery l))).
  { rewrite !new_PgSetOperator_query.
    destruct (decide (keys (getSelectedFields l) = keys (getSelectedFields r)))
      as [E|E].
    - rewrite !bool_decide_eq_true_2 by congruence. reflexivity.
    - rewrite !bool_decide_eq_false_2 by congruence. reflexivity. }
  split; exact H.
Qed.
